(** * scripts/export_yolo_onnx.py: the batch exporter

    A shallow embedding of [export_models] and of the [__main__] block of
    [scripts/export_yolo_onnx.py].

    The script is effectful: it reads and changes the file system, prints to
    the console and calls the ultralytics library.  The embedding threads an
    explicit [World] (file system and a chronological trace of the script's
    observable actions) through a small state-and-exception monad.  It is
    written twice: in [M], for a process that nothing disturbs, and in [P],
    where the environment can cut any operation short and raised values
    need not be instances of [Exception].  [main'_refines] relates the
    two.

    What is external to the script is modelled as follows.
    - [ultralytics.YOLO] and [Model.export] are arbitrary functions on the
      file system that either return or raise (Section variables): every
      theorem holds for every behaviour of the library.
    - [os.path.join], [os.path.dirname] and [str.replace] are written out
      after CPython's [posixpath] and [str] (the script's comments target
      Apple Silicon, a POSIX platform).
    - [os.path.exists], [os.makedirs] and [os.rename] act on a POSIX-like
      tree of files and directories, addressed by lexically resolved paths
      (no symbolic or hard links); [kernel_resolve] is the stricter
      resolution of the kernel, which walks through existing directories
      only.  Refusals the tree cannot explain (permissions, read-only or
      different devices) come from an arbitrary oracle [os_denies].
    - In [M], [print] succeeds and appends to the trace, and what is
      raised is an instance of [Exception].  In [P], an arbitrary oracle
      [interrupts] raises in place of any operation ([print] on a closed
      standard output, a signal), and the library may raise what the
      handler of line 62 does not catch ([KeyboardInterrupt],
      [SystemExit]). *)

From stdpp Require Import gmap strings list fin_maps.
From Stdlib Require Import ZArith Ascii.

(** ** Python strings *)

Module Py.

Definition sep : ascii := "/"%char.
Definition extsep : ascii := "."%char.

(** [s.startswith(p)] *)
Fixpoint startswith (p s : string) : bool :=
  match p, s with
  | EmptyString, _ => true
  | String a p', String b s' => bool_decide (a = b) && startswith p' s'
  | String _ _, EmptyString => false
  end.

(** [s.endswith(c)] for a one-character [c] *)
Fixpoint endswith_char (c : ascii) (s : string) : bool :=
  match s with
  | EmptyString => false
  | String a EmptyString => bool_decide (a = c)
  | String _ s' => endswith_char c s'
  end.

(** [c in s] *)
Fixpoint contains_char (c : ascii) (s : string) : bool :=
  match s with
  | EmptyString => false
  | String a s' => bool_decide (a = c) || contains_char c s'
  end.

(** [s.replace(old, new)]: every occurrence of [old], found from the left
    and not overlapping the previous one, becomes [new].  [skip] counts the
    characters of a matched occurrence still to be dropped. *)
Fixpoint replace_from (old new : string) (skip : nat) (s : string) : string :=
  match s with
  | EmptyString => EmptyString
  | String c s' =>
      match skip with
      | S k => replace_from old new k s'
      | O =>
          if startswith old s
          then new +:+ replace_from old new (Nat.pred (String.length old)) s'
          else String c (replace_from old new O s')
      end
  end.

(** With an empty [old], Python puts [new] before every character and at
    the end. *)
Fixpoint intersperse_all (new s : string) : string :=
  match s with
  | EmptyString => new
  | String c s' => new +:+ String c (intersperse_all new s')
  end.

Definition replace (old new s : string) : string :=
  match old with
  | EmptyString => intersperse_all new s
  | String _ _ => replace_from old new O s
  end.

(** [posixpath.join(a, *p)] *)
Definition join_step (path b : string) : string :=
  if startswith (String sep EmptyString) b then b
  else if bool_decide (path = EmptyString) || endswith_char sep path then path +:+ b
  else path +:+ String sep b.

Definition join (a : string) (p : list string) : string :=
  foldl join_step a p.

(** [s.rstrip("/")] *)
Fixpoint rstrip_sep (s : string) : string :=
  match s with
  | EmptyString => EmptyString
  | String c s' =>
      match rstrip_sep s' with
      | EmptyString => if bool_decide (c = sep) then EmptyString else String c EmptyString
      | r => String c r
      end
  end.

(** [p[:p.rfind("/") + 1]]: up to and including the last separator. *)
Fixpoint head_through_sep (p : string) : string :=
  match p with
  | EmptyString => EmptyString
  | String c p' =>
      if contains_char sep p' then String c (head_through_sep p')
      else if bool_decide (c = sep) then String c EmptyString
      else EmptyString
  end.

(** [posixpath.dirname(p)]: the head, without its trailing separators unless
    it consists of separators only. *)
Definition dirname (p : string) : string :=
  let head := head_through_sep p in
  match rstrip_sep head with
  | EmptyString => head
  | r => r
  end.

(** [p.split("/")] *)
Fixpoint split_sep (cur : string) (s : string) : list string :=
  match s with
  | EmptyString => [cur]
  | String c s' =>
      if bool_decide (c = sep) then cur :: split_sep EmptyString s'
      else split_sep (cur +:+ String c EmptyString) s'
  end.

End Py.

(** The spec's "checkpoint basename": the name with its extension stripped,
    the extension being the last dot and what follows it.  This definition
    follows the spec's words; the script itself uses [Py.replace]. *)
Fixpoint strip_extension (s : string) : string :=
  match s with
  | EmptyString => EmptyString
  | String c s' =>
      if Py.contains_char Py.extsep s' then String c (strip_extension s')
      else if bool_decide (c = Py.extsep) then EmptyString
      else s
  end.


(** ** Exceptions, files and the world *)

(** An exception object: the name of its class and what [str(e)] gives.
    In [M] every raised value is an instance of [Exception], the class the
    handler on line 62 names; [raised], below, tells these from the values
    that derive from [BaseException] only ([KeyboardInterrupt],
    [SystemExit]).  For the errors of the operating system [exc_str] is the
    part of [str(e)] that names the error; Python appends the path or
    paths of the call. *)
Record exception := Exc { exc_type : string; exc_str : string }.

Definition FileNotFoundError : exception := Exc "FileNotFoundError" "[Errno 2] No such file or directory".
Definition FileExistsError : exception := Exc "FileExistsError" "[Errno 17] File exists".
Definition NotADirectoryError : exception := Exc "NotADirectoryError" "[Errno 20] Not a directory".
Definition IsADirectoryError : exception := Exc "IsADirectoryError" "[Errno 21] Is a directory".
Definition InvalidArgumentError : exception := Exc "OSError" "[Errno 22] Invalid argument".
Definition DirectoryNotEmptyError : exception := Exc "OSError" "[Errno 39] Directory not empty".

Inductive outcome (A : Type) : Type :=
| Return (a : A)
| Raise (e : exception).
Arguments Return {A} a.
Arguments Raise {A} e.

(** A node of the file tree: a regular file with its bytes, or a directory. *)
Inductive node : Type :=
| File (content : string)
| Dir.

(** A resolved location: the components from the root.  The root itself is
    [[]] and is always a directory. *)
Abbreviation loc := (list string).
Abbreviation FS := (gmap (list string) node).

Definition node_at (t : FS) (l : loc) : option node :=
  match l with
  | [] => Some Dir
  | _ => t !! l
  end.

Definition is_dir (t : FS) (l : loc) : bool :=
  match node_at t l with
  | Some Dir => true
  | _ => false
  end.

Definition parent (l : loc) : loc := removelast l.

(** One component of a path walked from [l]. *)
Definition walk (l : loc) (c : string) : loc :=
  if bool_decide (c = "" ∨ c = ".") then l
  else if bool_decide (c = "..") then parent l
  else l ++ [c].

(** Lexical resolution of a path string, relative paths starting at [cwd]. *)
Definition resolve (cwd : loc) (p : string) : loc :=
  foldl walk (if Py.startswith "/" p then [] else cwd) (Py.split_sep "" p).

(** Requests to the operating system that it may refuse for reasons outside
    the tree. *)
Inductive syscall : Type :=
| SysMkdir (l : loc)
| SysRename (s d : loc).

(** The keyword arguments of [Model.export]. *)
Record ExportArgs := {
  format : string;
  imgsz : Z;
  simplify : bool;
  dynamic : bool;
  half : bool;
  opset : Z
}.

(** The lines the script prints, before formatting. *)
Inductive message : Type :=
| MsgExporting (target_dir : string)
| MsgProcessing (model_name : string)
| MsgSkipping (model_name : string)
| MsgSuccess (onnx_filename final_path : string)
| MsgWarning (exported_path : string)
| MsgError (model_name : string) (e : exception)
| MsgComplete.

Definition nl : string := String "010"%char EmptyString.

(** The f-strings of lines 23, 26, 29, 58, 60, 63 and 67. *)
Definition render (m : message) : string :=
  match m with
  | MsgExporting target_dir => "Exporting models to " +:+ target_dir +:+ "..."
  | MsgProcessing model_name => nl +:+ "Processing " +:+ model_name +:+ "..."
  | MsgSkipping model_name => "Skipping " +:+ model_name +:+ ": file not found."
  | MsgSuccess onnx_filename final_path =>
      "Successfully exported " +:+ onnx_filename +:+ " to " +:+ final_path
  | MsgWarning exported_path =>
      "Warning: Expected exported file at " +:+ exported_path +:+ " but not found."
  | MsgError model_name e => "Error exporting " +:+ model_name +:+ ": " +:+ exc_str e
  | MsgComplete => nl +:+ "Export process complete."
  end.

(** What the script does that can be seen from outside, in the order it
    does it. *)
Inductive event : Type :=
| EvMakedirs (path : string)
| EvExists (path : string)
| EvLoad (model_name : string)
| EvExport (args : ExportArgs)
| EvRename (src dst : string)
| EvPrint (m : message).

Record World := { fs : FS; trace : list event }.

(** The text on the console. *)
Definition console (tr : list event) : list string :=
  omap (λ ev, match ev with EvPrint m => Some (render m) | _ => None end) tr.

(** The names whose iteration has started. *)
Definition started (tr : list event) : list string :=
  omap (λ ev, match ev with EvPrint (MsgProcessing n) => Some n | _ => None end) tr.

(** The calls into the library. *)
Definition is_library_call (ev : event) : bool :=
  match ev with
  | EvLoad _ | EvExport _ => true
  | _ => false
  end.

(** The calls that change the file tree on the script's behalf. *)
Definition is_mutation (ev : event) : bool :=
  match ev with
  | EvMakedirs _ | EvRename _ _ => true
  | _ => false
  end.

(** ** The monad of the script: state and exceptions *)

Definition M (A : Type) : Type := World → outcome A * World.

#[global] Instance M_ret : MRet M := λ A a w, (Return a, w).

#[global] Instance M_bind : MBind M := λ A B k m w,
  match m w with
  | (Return a, w') => k a w'
  | (Raise e, w') => (Raise e, w')
  end.

(** [try: body  except Exception as e: handler(e)] *)
Definition try_except {A} (body : M A) (handler : exception → M A) : M A :=
  λ w, match body w with
       | (Return a, w') => (Return a, w')
       | (Raise e, w') => handler e w'
       end.

Definition emit (ev : event) : M unit :=
  λ w, (Return tt, {| fs := fs w; trace := trace w ++ [ev] |}).

(** An operation that acts on the file tree only. *)
Definition on_fs {A} (f : FS → outcome A * FS) : M A :=
  λ w, let '(r, t) := f (fs w) in (r, {| fs := t; trace := trace w |}).

Definition print (m : message) : M unit := emit (EvPrint m).

(** [for x in xs: body(x)] *)
Fixpoint for_each {A} (xs : list A) (body : A → M unit) : M unit :=
  match xs with
  | [] => mret tt
  | x :: xs' => body x;; for_each xs' body
  end.

(** ** Raised values that are no failures, and operations cut short

    In [M] every raised value is an instance of [Exception] and every
    operation of the script is carried out.  The Python process knows
    more: a raised value may be no instance of [Exception]
    ([KeyboardInterrupt], [SystemExit], [GeneratorExit]), which the handler
    of line 62 lets through, and an operation may be cut short ([print]
    raises when the standard output is closed or its pipe is broken, a
    signal arrives during a call).  The monad [P] has both; the primed
    definitions below are the script in [P], and [M] is [P] for a process
    that nothing disturbs ([main'_refines]). *)

Inductive raised : Type :=
| Failure (e : exception)
| Interrupt (e : exception).

Inductive result (A : Type) : Type :=
| Done (a : A)
| Raised (r : raised).
Arguments Done {A} a.
Arguments Raised {A} r.

Definition of_outcome {A} (o : outcome A) : result A :=
  match o with
  | Return a => Done a
  | Raise e => Raised (Failure e)
  end.

Definition P (A : Type) : Type := World → result A * World.

#[global] Instance P_ret : MRet P := λ A a w, (Done a, w).

#[global] Instance P_bind : MBind P := λ A B k m w,
  match m w with
  | (Done a, w') => k a w'
  | (Raised r, w') => (Raised r, w')
  end.

(** [try: body  except Exception as e: handler(e)]: what is no instance of
    [Exception] passes through. *)
Definition try_except' {A} (body : P A) (handler : exception → P A) : P A :=
  λ w, match body w with
       | (Done a, w') => (Done a, w')
       | (Raised (Failure e), w') => handler e w'
       | (Raised (Interrupt e), w') => (Raised (Interrupt e), w')
       end.

(** An operation on the file tree that returns or raises either kind. *)
Definition on_fs' {A} (f : FS → result A * FS) : P A :=
  λ w, let '(r, t) := f (fs w) in (r, {| fs := t; trace := trace w |}).

(** A call of the operating system: what it raises is an [OSError], an
    instance of [Exception]. *)
Definition os_call {A} (f : FS → outcome A * FS) (t : FS) : result A * FS :=
  let '(o, t') := f t in (of_outcome o, t').

Fixpoint for_each' {A} (xs : list A) (body : A → P unit) : P unit :=
  match xs with
  | [] => mret tt
  | x :: xs' => body x;; for_each' xs' body
  end.

(** A run in [M] read as a run in [P]. *)
Definition lift {A} (x : outcome A * World) : result A * World :=
  (of_outcome x.1, x.2).

(** A library of [P] read as one of [M]. *)
Definition as_failure {A} (x : result A * FS) : outcome A * FS :=
  match x with
  | (Done a, t) => (Return a, t)
  | (Raised (Failure e), t) | (Raised (Interrupt e), t) => (Raise e, t)
  end.

(** [m'] does in [P] what [m] does in [M]. *)
Definition refines {A} (m' : P A) (m : M A) : Prop := ∀ w, m' w = lift (m w).

(** Whatever [m] raises is one of [Q]. *)
Definition raises_within {A} (Q : raised → Prop) (m : P A) : Prop :=
  ∀ w r w', m w = (Raised r, w') → Q r.

(** ** The script *)

(** [model_names], lines 6 to 17. *)
Definition model_names : list string :=
  [ "yolo26n-pose.pt";
    "yolo26s-pose.pt";
    "yolo26m-pose.pt";
    "yolo26l-pose.pt";
    "yolo26x-pose.pt";
    "yolo26n-seg.pt";
    "yolo26s-seg.pt";
    "yolo26m-seg.pt";
    "yolo26l-seg.pt";
    "yolo26x-seg.pt" ].

(** The arguments of the call on lines 42 to 49. *)
Definition export_args : ExportArgs :=
  {| format := "onnx";
     imgsz := 640%Z;
     simplify := true;
     dynamic := false;
     half := true;
     opset := 17%Z |}.

(** Lines 20, 52 and 53. *)
Definition target_dir_of (script_file : string) : string :=
  Py.join (Py.dirname script_file) [".."; "public"; "models"; "yolo26"].

Definition onnx_filename_of (model_name : string) : string :=
  Py.replace ".pt" ".onnx" model_name.

Definition final_path_of (target_dir model_name : string) : string :=
  Py.join target_dir [onnx_filename_of model_name].

(** ** Sample processes

    Concrete working directories, operating systems, libraries and trees,
    on which the script is run in the examples at the end of the file. *)

Module Sample.

Definition cwd : loc := ["work"].
Definition script_file : string := "/app/scripts/export_yolo_onnx.py".

(** An operating system that refuses nothing. *)
Definition permissive : syscall → FS → option exception := λ _ _, None.

(** The working directory and the application are on different devices. *)
Definition cross_device : syscall → FS → option exception :=
  λ call _,
    match call with
    | SysRename _ _ => Some (Exc "OSError" "[Errno 18] Invalid cross-device link")
    | SysMkdir _ => None
    end.

(** The application directory is read-only. *)
Definition read_only : syscall → FS → option exception :=
  λ call _,
    match call with
    | SysMkdir _ => Some (Exc "PermissionError" "[Errno 13] Permission denied")
    | SysRename _ _ => None
    end.

(** A library whose model is the checkpoint's name; a checkpoint holding
    the bytes [corrupt] does not load. *)
Definition YOLO (model_name : string) (t : FS) : outcome string * FS :=
  match t !! resolve cwd model_name with
  | Some (File "corrupt") => (Raise (Exc "RuntimeError" "invalid checkpoint"), t)
  | _ => (Return model_name, t)
  end.

Definition artifact_of (model : string) : node := File ("onnx of " +:+ model).

(** An exporter that writes next to the checkpoint, as ultralytics does. *)
Definition export_beside (model : string) (args : ExportArgs) (t : FS)
  : outcome string * FS :=
  let out := Py.replace ".pt" ".onnx" model in
  (Return out, <[resolve cwd out := artifact_of model]> t).

(** An exporter that reports a path and writes nothing. *)
Definition export_nothing (model : string) (args : ExportArgs) (t : FS)
  : outcome string * FS :=
  (Return (Py.replace ".pt" ".onnx" model), t).

(** An exporter that fails. *)
Definition export_fails (model : string) (args : ExportArgs) (t : FS)
  : outcome string * FS :=
  (Raise (Exc "NotImplementedError" "unsupported operator"), t).

(** An exporter that writes to a working name inside the destination
    directory and reports it. *)
Definition scratch_path : string := "/app/public/models/yolo26/export.onnx".

Definition export_into_destination (model : string) (args : ExportArgs) (t : FS)
  : outcome string * FS :=
  (Return scratch_path, <[resolve cwd scratch_path := artifact_of model]> t).

(** The application with its scripts, and a working directory with one
    good and one corrupt checkpoint. *)
Definition tree : FS :=
  list_to_map
    [ (["app"], Dir);
      (["app"; "scripts"], Dir);
      (["work"], Dir);
      (["work"; "yolo26n-pose.pt"], File "weights");
      (["work"; "yolo26s-seg.pt"], File "corrupt") ].

(** The same after an earlier run: the destination holds an old artifact. *)
Definition tree_after_run : FS :=
  list_to_map
    [ (["app"], Dir);
      (["app"; "scripts"], Dir);
      (["app"; "public"], Dir);
      (["app"; "public"; "models"], Dir);
      (["app"; "public"; "models"; "yolo26"], Dir);
      (["app"; "public"; "models"; "yolo26"; "yolo26n-pose.onnx"], File "old artifact");
      (["work"], Dir);
      (["work"; "yolo26n-pose.pt"], File "weights");
      (["work"; "yolo26s-seg.pt"], File "corrupt") ].

(** A file stands where the directory [public] should be. *)
Definition tree_blocked : FS :=
  list_to_map
    [ (["app"], Dir);
      (["app"; "scripts"], Dir);
      (["app"; "public"], File "not a directory");
      (["work"], Dir) ].

(** The tree of [tree_after_run] where, besides, an interrupted run left
    the exporter's working file in the destination directory. *)
Definition tree_interrupted : FS :=
  <[["app"; "public"; "models"; "yolo26"; "export.onnx"] := File "interrupted export"]>
    tree_after_run.

(** The scenario of the spec's section 8: [a.pt] exports, [b.pt] is
    missing, the export of [c.pt] raises. *)
Definition export_scenario (model : string) (args : ExportArgs) (t : FS)
  : outcome string * FS :=
  if bool_decide (model = "c.pt") then export_fails model args t
  else export_beside model args t.

Definition tree_scenario : FS :=
  list_to_map
    [ (["app"], Dir);
      (["app"; "scripts"], Dir);
      (["app"; "public"], Dir);
      (["app"; "public"; "models"], Dir);
      (["app"; "public"; "models"; "yolo26"], Dir);
      (["work"], Dir);
      (["work"; "a.pt"], File "weights a");
      (["work"; "c.pt"], File "weights c") ].

(** The application with its destination directory made, nothing
    exported yet. *)
Definition tree_ready : FS :=
  list_to_map
    [ (["app"], Dir);
      (["app"; "scripts"], Dir);
      (["app"; "public"], Dir);
      (["app"; "public"; "models"], Dir);
      (["app"; "public"; "models"; "yolo26"], Dir);
      (["work"], Dir);
      (["work"; "yolo26n-pose.pt"], File "weights") ].

(** An exporter told to write straight into the destination directory,
    under the name the script will ask for. *)
Definition export_into_place (model : string) (args : ExportArgs) (t : FS)
  : outcome string * FS :=
  let out := "/app/public/models/yolo26/" +:+ Py.replace ".pt" ".onnx" model in
  (Return out, <[resolve cwd out := artifact_of model]> t).

(** The application and a working directory without any checkpoint. *)
Definition tree_bare : FS :=
  list_to_map [ (["app"], Dir); (["app"; "scripts"], Dir); (["work"], Dir) ].

(** An exporter that is told what to produce: the file it writes is
    called after the format and tells the precision. *)
Definition export_as_told (model : string) (args : ExportArgs) (t : FS)
  : outcome string * FS :=
  let out := Py.replace ".pt" ("." +:+ format args) model in
  (Return out,
   <[resolve cwd out := File (format args +:+ (if half args then " fp16 of " else " fp32 of ") +:+ model)]> t).

(** A process that nothing disturbs. *)
Definition quiet : event → World → option raised := λ _ _, None.

(** The standard output is closed: every [print] raises [ValueError]. *)
Definition closed_stdout : event → World → option raised :=
  λ ev _,
    match ev with
    | EvPrint _ => Some (Failure (Exc "ValueError" "I/O operation on closed file."))
    | _ => None
    end.

(** The library above in [P]: it raises instances of [Exception] only. *)
Definition YOLO' (model_name : string) (t : FS) : result string * FS :=
  os_call (YOLO model_name) t.

Definition export_beside' (model : string) (args : ExportArgs) (t : FS)
  : result string * FS :=
  os_call (export_beside model args) t.

(** The user presses Ctrl-C while the export runs. *)
Definition export_interrupted (model : string) (args : ExportArgs) (t : FS)
  : result string * FS :=
  (Raised (Interrupt (Exc "KeyboardInterrupt" "")), t).

Definition start (t : FS) : World := {| fs := t; trace := [] |}.

End Sample.

Section Script.

(** The process: its working directory, the value of [__file__], and what
    the operating system refuses. *)
Variable cwd : loc.
Variable script_file : string.
Variable os_denies : syscall → FS → option exception.

(** The ultralytics library: [YOLO(name)] and [model.export] with its
    keyword arguments read and write the file tree at will, and return or
    raise. *)
Variable Model : Type.
Variable YOLO : string → FS → outcome Model * FS.
Variable model_export : Model → ExportArgs → FS → outcome string * FS.

(** The same library and the process in [P]: the library may raise what is
    no instance of [Exception], and the environment may raise in place of
    any operation of the script ([interrupts ev w] is what it raises when
    the script, in the world [w], is about to do [ev]). *)
Variable YOLO' : string → FS → result Model * FS.
Variable model_export' : Model → ExportArgs → FS → result string * FS.
Variable interrupts : event → World → option raised.

(** *** The operating system *)

(** [os.path.exists(p)]: never raises; the empty path names nothing.  The
    path is resolved lexically: the answer is that of the kernel
    ([kernel_exists], below) wherever the kernel can walk the path, and
    what the kernel finds is found here ([fs_exists_of_kernel]); a path
    that leads through a missing directory and back with [..], or through
    a regular file, is resolved here and not by the kernel. *)
Definition fs_exists (p : string) (t : FS) : bool :=
  if bool_decide (p = "") then false
  else bool_decide (is_Some (node_at t (resolve cwd p))).

(** Resolution as the kernel does it, for comparison: every component,
    also [.], [..] and the empty one a trailing separator leaves, is looked
    up in a directory that exists.  Where it succeeds it agrees with
    [resolve]; it fails on a path through something that is missing or is
    no directory. *)
Definition kernel_walk (t : FS) (place : option loc) (c : string) : option loc :=
  match place with
  | None => None
  | Some l => if is_dir t l then Some (walk l c) else None
  end.

Definition kernel_resolve (t : FS) (p : string) : option loc :=
  if bool_decide (p = "") then None
  else foldl (kernel_walk t) (Some (if Py.startswith "/" p then [] else cwd))
         (Py.split_sep "" p).

Definition kernel_exists (p : string) (t : FS) : bool :=
  match kernel_resolve t p with
  | Some l => bool_decide (is_Some (node_at t l))
  | None => false
  end.

(** [os.makedirs(p, exist_ok=True)], walking the components of the
    resolved path from [done]: a directory already there is kept, a
    missing one is made, a file in the way is an error. *)
Fixpoint mkdirs (done : loc) (todo : list string) (t : FS) : outcome unit * FS :=
  match todo with
  | [] => (Return tt, t)
  | c :: todo' =>
      let l := done ++ [c] in
      match t !! l with
      | Some Dir => mkdirs l todo' t
      | Some (File _) =>
          (Raise (match todo' with [] => FileExistsError | _ => NotADirectoryError end), t)
      | None =>
          match os_denies (SysMkdir l) t with
          | Some e => (Raise e, t)
          | None => mkdirs l todo' (<[l := Dir]> t)
          end
      end
  end.

Definition fs_makedirs (p : string) (t : FS) : outcome unit * FS :=
  if bool_decide (p = "") then (Raise FileNotFoundError, t)
  else mkdirs [] (resolve cwd p) t.

(** The directory [d] has an entry. *)
Definition has_entries (t : FS) (d : loc) : bool :=
  bool_decide (filter (λ kv : loc * node, d `prefix_of` kv.1 ∧ kv.1 ≠ d) t ≠ ∅).

(** The tree at [s] and below it, moved to [d]. *)
Definition move_tree (s d : loc) (t : FS) : FS :=
  list_to_map
    ((λ kv : loc * node, (d ++ drop (length s) kv.1, kv.2)) <$>
       map_to_list (filter (λ kv : loc * node, s `prefix_of` kv.1) t))
  ∪ filter (λ kv : loc * node, ¬ s `prefix_of` kv.1) (delete d t).

(** [os.rename(src, dst)] on a POSIX system.  The operating system may
    refuse any call whose source exists (a read-only or another device is
    found out before the two names are compared).  Otherwise renaming a
    path to itself does nothing, a directory cannot go below itself, a
    file replaces a file, a directory replaces an empty directory, a new
    name needs an existing parent directory, and a failed call changes
    nothing. *)
Definition fs_rename (src dst : string) (t : FS) : outcome unit * FS :=
  if bool_decide (src = "" ∨ dst = "") then (Raise FileNotFoundError, t)
  else
    let s := resolve cwd src in
    let d := resolve cwd dst in
    match node_at t s with
    | None => (Raise FileNotFoundError, t)
    | Some n =>
        match os_denies (SysRename s d) t with
        | Some e => (Raise e, t)
        | None =>
            if bool_decide (s = d) then (Return tt, t)
            else
              let missing_parent :=
                match node_at t (parent d) with
                | None => FileNotFoundError
                | Some _ => NotADirectoryError
                end in
              match n with
              | File c =>
                  match node_at t d with
                  | Some Dir => (Raise IsADirectoryError, t)
                  | Some (File _) => (Return tt, <[d := File c]> (delete s t))
                  | None =>
                      if is_dir t (parent d)
                      then (Return tt, <[d := File c]> (delete s t))
                      else (Raise missing_parent, t)
                  end
              | Dir =>
                  if bool_decide (s `prefix_of` d) then (Raise InvalidArgumentError, t)
                  else
                    match node_at t d with
                    | Some (File _) => (Raise NotADirectoryError, t)
                    | Some Dir =>
                        if has_entries t d then (Raise DirectoryNotEmptyError, t)
                        else (Return tt, move_tree s d t)
                    | None =>
                        if is_dir t (parent d) then (Return tt, move_tree s d t)
                        else (Raise missing_parent, t)
                    end
              end
        end
    end.

Definition os_path_exists (p : string) : M bool :=
  emit (EvExists p);; on_fs (λ t, (Return (fs_exists p t), t)).

Definition os_makedirs (p : string) : M unit :=
  emit (EvMakedirs p);; on_fs (fs_makedirs p).

Definition os_rename (src dst : string) : M unit :=
  emit (EvRename src dst);; on_fs (fs_rename src dst).

(** *** The library *)

Definition load (model_name : string) : M Model :=
  emit (EvLoad model_name);; on_fs (YOLO model_name).

Definition export (model : Model) (args : ExportArgs) : M string :=
  emit (EvExport args);; on_fs (model_export model args).

(** *** [export_models] *)

Definition target_dir : string := target_dir_of script_file.

(** The body of the [try], lines 28 to 60; [continue] ends it early. *)
Definition try_body (model_name : string) : M unit :=
  found ← os_path_exists model_name;
  if negb (found : bool) then print (MsgSkipping model_name)
  else
    model ← load model_name;
    exported_path ← export model export_args;
    let onnx_filename := onnx_filename_of model_name in
    let final_path := final_path_of target_dir model_name in
    moved ← os_path_exists exported_path;
    if (moved : bool) then
      os_rename exported_path final_path;;
      print (MsgSuccess onnx_filename final_path)
    else print (MsgWarning exported_path).

(** The body of the [for], lines 26 to 63. *)
Definition loop_body (model_name : string) : M unit :=
  print (MsgProcessing model_name);;
  try_except (try_body model_name)
             (λ e, print (MsgError model_name e)).

Definition export_models : M unit :=
  os_makedirs target_dir;;
  print (MsgExporting target_dir);;
  for_each model_names loop_body.

(** Lines 65 to 67. *)
Definition main : M unit :=
  export_models;;
  print MsgComplete.

(** *** The script in [P] *)

(** An operation of the script: cut short by the environment, or carried
    out and recorded. *)
Definition attempt (ev : event) : P unit :=
  λ w, match interrupts ev w with
       | Some r => (Raised r, w)
       | None => (Done tt, {| fs := fs w; trace := trace w ++ [ev] |})
       end.

Definition print' (m : message) : P unit := attempt (EvPrint m).

Definition os_path_exists' (p : string) : P bool :=
  attempt (EvExists p);; on_fs' (os_call (λ t, (Return (fs_exists p t), t))).

Definition os_makedirs' (p : string) : P unit :=
  attempt (EvMakedirs p);; on_fs' (os_call (fs_makedirs p)).

Definition os_rename' (src dst : string) : P unit :=
  attempt (EvRename src dst);; on_fs' (os_call (fs_rename src dst)).

Definition load' (model_name : string) : P Model :=
  attempt (EvLoad model_name);; on_fs' (YOLO' model_name).

Definition export' (model : Model) (args : ExportArgs) : P string :=
  attempt (EvExport args);; on_fs' (model_export' model args).

Definition try_body' (model_name : string) : P unit :=
  found ← os_path_exists' model_name;
  if negb (found : bool) then print' (MsgSkipping model_name)
  else
    model ← load' model_name;
    exported_path ← export' model export_args;
    let onnx_filename := onnx_filename_of model_name in
    let final_path := final_path_of target_dir model_name in
    moved ← os_path_exists' exported_path;
    if (moved : bool) then
      os_rename' exported_path final_path;;
      print' (MsgSuccess onnx_filename final_path)
    else print' (MsgWarning exported_path).

Definition loop_body' (model_name : string) : P unit :=
  print' (MsgProcessing model_name);;
  try_except' (try_body' model_name)
              (λ e, print' (MsgError model_name e)).

Definition export_models' : P unit :=
  os_makedirs' target_dir;;
  print' (MsgExporting target_dir);;
  for_each' model_names loop_body'.

Definition main' : P unit :=
  export_models';;
  print' MsgComplete.

(** What can end a run with an exception once the destination directory
    is made: the environment cuts an operation short (a [print] that
    fails, an interrupt), or the library raises what is no instance of
    [Exception]. *)
Definition fatal_cause (r : raised) : Prop :=
  (∃ ev w0, interrupts ev w0 = Some r)
  ∨ (∃ e name t t', r = Interrupt e ∧ YOLO' name t = (Raised r, t'))
  ∨ (∃ e model t t', r = Interrupt e
                     ∧ model_export' model export_args t = (Raised r, t')).

(** Inside the [try]: what is raised is a failure, which the handler
    takes, or has a fatal cause. *)
Definition fatal_or_failure (r : raised) : Prop := fatal_cause r ∨ ∃ e, r = Failure e.

(** The process is left alone and the library raises instances of
    [Exception] only. *)
Definition undisturbed : Prop :=
  (∀ ev w0, interrupts ev w0 = None)
  ∧ (∀ e name t t', YOLO' name t ≠ (Raised (Interrupt e), t'))
  ∧ (∀ e model t t', model_export' model export_args t ≠ (Raised (Interrupt e), t')).

(** The spec's "the only error that is fatal to the overall run", in its
    words: whatever a run of the script raises, [os.makedirs] raised. *)
Definition spec_only_makedirs_is_fatal (w : World) : Prop :=
  ∀ r w', main' w = (Raised r, w') →
          ∃ w0, os_makedirs' target_dir w = (Raised r, w0).

(** *** What one iteration may do *)

(** The events an iteration for [model_name] can add to the trace. *)
Definition iteration_event (model_name : string) (ev : event) : Prop :=
  match ev with
  | EvMakedirs _ => False
  | EvExists _ => True
  | EvLoad n => n = model_name
  | EvExport args => args = export_args
  | EvRename _ dst => dst = final_path_of target_dir model_name
  | EvPrint (MsgProcessing n) | EvPrint (MsgSkipping n) | EvPrint (MsgError n _) =>
      n = model_name
  | EvPrint (MsgSuccess o f) =>
      o = onnx_filename_of model_name ∧ f = final_path_of target_dir model_name
  | EvPrint (MsgWarning _) => True
  | EvPrint (MsgExporting _) | EvPrint MsgComplete => False
  end.

(** The tree as the library calls of one iteration leave it, before the
    script itself touches it. *)
Definition library_tree (model_name : string) (t : FS) : FS :=
  if fs_exists model_name t then
    match YOLO model_name t with
    | (Raise _, t1) => t1
    | (Return model, t1) => (model_export model export_args t1).2
    end
  else t.

(** The path the exporter reports in an iteration, if it gets that far. *)
Definition reported_path (model_name : string) (t : FS) : option string :=
  if fs_exists model_name t then
    match YOLO model_name t with
    | (Raise _, _) => None
    | (Return model, t1) =>
        match model_export model export_args t1 with
        | (Return exported_path, _) => Some exported_path
        | (Raise _, _) => None
        end
    end
  else None.

(** The events of a run of [export_models] after its first two. *)
Definition run_event (ev : event) : Prop :=
  ∃ name, name ∈ model_names ∧ iteration_event name ev.

(** The events of a trace that change the file tree. *)
Definition mutations (evs : list event) : list event :=
  filter (λ ev, is_mutation ev = true) evs.

(** An iteration leaves alone every entry of the destination directory
    other than its own destination path (the tree being compared with
    what the library calls left). *)
Definition other_destination_entries_unchanged (model_name : string) (w : World) : Prop :=
  ∀ l : loc,
    parent l = resolve cwd target_dir →
    l ≠ resolve cwd (final_path_of target_dir model_name) →
    fs (loop_body model_name w).2 !! l = library_tree model_name (fs w) !! l.

(** The messages printed, the checkpoints loaded and the calls into the
    library, in the order of the trace. *)
Definition printed (evs : list event) : list message :=
  omap (λ ev, match ev with EvPrint m => Some m | _ => None end) evs.

Definition loads (evs : list event) : list string :=
  omap (λ ev, match ev with EvLoad n => Some n | _ => None end) evs.

Definition library_calls (evs : list event) : list event :=
  filter (λ ev, is_library_call ev = true) evs.

(** The events of iterations that all skip. *)
Definition skip_trace (names : list string) : list event :=
  flat_map (λ n, [EvPrint (MsgProcessing n); EvExists n; EvPrint (MsgSkipping n)]) names.

Ltac run_script :=
  unfold loop_body, try_body, try_except, os_path_exists, os_makedirs, os_rename,
    load, export, print, emit, on_fs, mbind, M_bind, mret, M_ret; simpl.

Ltac trace_eq := simpl; rewrite <- ?app_assoc; reflexivity.

(** Membership in a list that is written out. *)
Ltac in_list H :=
  simpl in H;
  repeat (apply elem_of_cons in H as [H|H]; [try discriminate H|]);
  try (by apply elem_of_nil in H).

(** *** Strings and paths *)

Lemma append_cons (a : ascii) (x y : string) : String a x +:+ y = String a (x +:+ y).
Proof. reflexivity. Qed.

Lemma append_nonempty (x y : string) (a : ascii) : x +:+ String a y ≠ EmptyString.
Proof. destruct x; discriminate. Qed.

Lemma endswith_char_append (c a : ascii) (x y : string) :
  Py.endswith_char c (x +:+ String a y) = Py.endswith_char c (String a y).
Proof.
  induction x as [|b x IH]; [reflexivity|].
  rewrite append_cons, <- IH.
  destruct x; reflexivity.
Qed.

Lemma append_assoc (x y z : string) : (x +:+ y) +:+ z = x +:+ y +:+ z.
Proof. induction x as [|a x IH]; [reflexivity|]. by rewrite !append_cons, IH. Qed.

(** Joining a relative name to a path that does not end in a separator
    puts exactly one separator between them. *)
Lemma join_step_plain (x y b : string) (a : ascii) :
  Py.endswith_char Py.sep (String a y) = false →
  Py.startswith "/" b = false →
  Py.join_step (x +:+ String a y) b = (x +:+ String a y) +:+ String "/" b.
Proof.
  intros Hend Hb. unfold Py.join_step, Py.sep in *. rewrite Hb.
  rewrite endswith_char_append, Hend.
  rewrite bool_decide_eq_false_2; [reflexivity | apply append_nonempty].
Qed.

(** [target_dir] always ends in the directory name [yolo26]. *)
Lemma target_dir_of_shape (f : string) :
  ∃ x, target_dir_of f = x +:+ "/yolo26".
Proof.
  unfold target_dir_of, Py.join. simpl foldl.
  assert (∃ x, Py.join_step (Py.dirname f) ".." = x +:+ "..") as [x0 ->].
  { unfold Py.join_step. simpl Py.startswith.
    destruct (_ || _).
    - by exists (Py.dirname f).
    - exists (Py.dirname f +:+ "/"). by rewrite append_assoc. }
  rewrite (join_step_plain x0 "." "public" "."); [|done..].
  rewrite append_assoc. change (".." +:+ String "/" "public") with "../public".
  rewrite (join_step_plain x0 "./public" "models" "."); [|done..].
  rewrite append_assoc. change ("../public" +:+ String "/" "models") with "../public/models".
  rewrite (join_step_plain x0 "./public/models" "yolo26" "."); [|done..].
  exists (x0 +:+ "../public/models"). by rewrite !append_assoc.
Qed.

Lemma final_path_of_plain (f name : string) :
  Py.startswith "/" (onnx_filename_of name) = false →
  final_path_of (target_dir_of f) name
  = target_dir_of f +:+ "/" +:+ onnx_filename_of name.
Proof.
  intros Hrel. destruct (target_dir_of_shape f) as [x ->].
  unfold final_path_of, Py.join. simpl foldl.
  by rewrite (join_step_plain x "yolo26" (onnx_filename_of name) "/").
Qed.

Lemma join_step_nonempty (path b : string) : path ≠ "" → Py.join_step path b ≠ "".
Proof.
  intros Hpath. unfold Py.join_step.
  destruct (Py.startswith (String Py.sep "") b) eqn:Hs.
  - destruct b; [discriminate Hs | discriminate].
  - destruct path; [done|]. by destruct (_ || _).
Qed.

Lemma final_path_of_nonempty (f name : string) :
  final_path_of (target_dir_of f) name ≠ "".
Proof.
  destruct (target_dir_of_shape f) as [x ->].
  apply join_step_nonempty, append_nonempty.
Qed.

Lemma target_dir_of_nonempty (f : string) : target_dir_of f ≠ "".
Proof. destruct (target_dir_of_shape f) as [x ->]. apply append_nonempty. Qed.

(** A name made of a stem without a dot and the extension [.pt]: there
    [str.replace] does what the spec's wording says. *)
Lemma replace_from_dotless (stem : string) :
  Py.contains_char Py.extsep stem = false →
  Py.replace_from ".pt" ".onnx" O (stem +:+ ".pt") = stem +:+ ".onnx".
Proof.
  induction stem as [|c stem IH]; [reflexivity|].
  simpl Py.contains_char. intros [Hc Hrest]%orb_false_elim.
  apply bool_decide_eq_false in Hc.
  rewrite !append_cons. cbn [Py.replace_from].
  replace (Py.startswith ".pt" (String c (stem +:+ ".pt"))) with false.
  - by rewrite IH.
  - simpl. rewrite bool_decide_eq_false_2; [done|]. intros E. by apply Hc.
Qed.

Lemma strip_extension_dotless (stem : string) :
  Py.contains_char Py.extsep stem = false →
  strip_extension (stem +:+ ".pt") = stem.
Proof.
  induction stem as [|c stem IH]; [reflexivity|].
  simpl Py.contains_char. intros [Hc Hrest]%orb_false_elim.
  rewrite !append_cons. cbn [strip_extension].
  replace (Py.contains_char Py.extsep (stem +:+ ".pt")) with true.
  - by rewrite IH.
  - clear. induction stem as [|a stem IH]; [reflexivity|].
    rewrite append_cons. simpl. by rewrite <- IH, orb_true_r.
Qed.


(** *** The six ways through one iteration *)

(** Such names get the destination path the spec words, whether listed or
    not. *)
Lemma final_path_of_dotless (f stem : string) :
  Py.contains_char Py.extsep stem = false →
  Py.startswith "/" stem = false →
  final_path_of (target_dir_of f) (stem +:+ ".pt")
  = target_dir_of f +:+ "/" +:+ strip_extension (stem +:+ ".pt") +:+ ".onnx".
Proof.
  intros Hdot Hrel.
  assert (onnx_filename_of (stem +:+ ".pt") = stem +:+ ".onnx") as Hname.
  { unfold onnx_filename_of, Py.replace. by apply replace_from_dotless. }
  rewrite final_path_of_plain, Hname, strip_extension_dotless; [done..|].
  rewrite Hname. destruct stem as [|a stem]; [done|].
  rewrite append_cons. simpl in *. by destruct (bool_decide _).
Qed.

Lemma world_eq (t t' : FS) (tr tr' : list event) :
  t = t' → tr = tr' → {| fs := t; trace := tr |} = {| fs := t'; trace := tr' |}.
Proof. by intros -> ->. Qed.

Lemma loop_body_skip (name : string) (w : World) :
  fs_exists name (fs w) = false →
  loop_body name w
  = (Return tt,
     {| fs := fs w;
        trace := trace w ++ [EvPrint (MsgProcessing name); EvExists name;
                             EvPrint (MsgSkipping name)] |}).
Proof.
  intros Hno. run_script. rewrite Hno. simpl.
  f_equal. apply world_eq; [done | trace_eq].
Qed.

Lemma loop_body_load_raises (name : string) (w : World) (e : exception) (t1 : FS) :
  fs_exists name (fs w) = true →
  YOLO name (fs w) = (Raise e, t1) →
  loop_body name w
  = (Return tt,
     {| fs := t1;
        trace := trace w ++ [EvPrint (MsgProcessing name); EvExists name;
                             EvLoad name; EvPrint (MsgError name e)] |}).
Proof.
  intros Hyes Hload. run_script. rewrite Hyes. simpl. rewrite Hload. simpl.
  f_equal. apply world_eq; [done | trace_eq].
Qed.

Lemma loop_body_export_raises (name : string) (w : World) (model : Model)
    (e : exception) (t1 t2 : FS) :
  fs_exists name (fs w) = true →
  YOLO name (fs w) = (Return model, t1) →
  model_export model export_args t1 = (Raise e, t2) →
  loop_body name w
  = (Return tt,
     {| fs := t2;
        trace := trace w ++ [EvPrint (MsgProcessing name); EvExists name;
                             EvLoad name; EvExport export_args;
                             EvPrint (MsgError name e)] |}).
Proof.
  intros Hyes Hload Hexp. run_script. rewrite Hyes. simpl. rewrite Hload. simpl.
  rewrite Hexp. simpl. f_equal. apply world_eq; [done | trace_eq].
Qed.

Lemma loop_body_missing (name : string) (w : World) (model : Model)
    (exported_path : string) (t1 t2 : FS) :
  fs_exists name (fs w) = true →
  YOLO name (fs w) = (Return model, t1) →
  model_export model export_args t1 = (Return exported_path, t2) →
  fs_exists exported_path t2 = false →
  loop_body name w
  = (Return tt,
     {| fs := t2;
        trace := trace w ++ [EvPrint (MsgProcessing name); EvExists name;
                             EvLoad name; EvExport export_args;
                             EvExists exported_path;
                             EvPrint (MsgWarning exported_path)] |}).
Proof.
  intros Hyes Hload Hexp Hout. run_script. rewrite Hyes. simpl. rewrite Hload. simpl.
  rewrite Hexp. simpl. rewrite Hout. simpl.
  f_equal. apply world_eq; [done | trace_eq].
Qed.

Lemma loop_body_rename_raises (name : string) (w : World) (model : Model)
    (exported_path : string) (e : exception) (t1 t2 t3 : FS) :
  fs_exists name (fs w) = true →
  YOLO name (fs w) = (Return model, t1) →
  model_export model export_args t1 = (Return exported_path, t2) →
  fs_exists exported_path t2 = true →
  fs_rename exported_path (final_path_of target_dir name) t2 = (Raise e, t3) →
  loop_body name w
  = (Return tt,
     {| fs := t3;
        trace := trace w ++ [EvPrint (MsgProcessing name); EvExists name;
                             EvLoad name; EvExport export_args;
                             EvExists exported_path;
                             EvRename exported_path (final_path_of target_dir name);
                             EvPrint (MsgError name e)] |}).
Proof.
  intros Hyes Hload Hexp Hout Hmv. run_script. rewrite Hyes. simpl. rewrite Hload. simpl.
  rewrite Hexp. simpl. rewrite Hout. simpl. rewrite Hmv. simpl.
  f_equal. apply world_eq; [done | trace_eq].
Qed.

Lemma loop_body_moved (name : string) (w : World) (model : Model)
    (exported_path : string) (t1 t2 t3 : FS) :
  fs_exists name (fs w) = true →
  YOLO name (fs w) = (Return model, t1) →
  model_export model export_args t1 = (Return exported_path, t2) →
  fs_exists exported_path t2 = true →
  fs_rename exported_path (final_path_of target_dir name) t2 = (Return tt, t3) →
  loop_body name w
  = (Return tt,
     {| fs := t3;
        trace := trace w ++ [EvPrint (MsgProcessing name); EvExists name;
                             EvLoad name; EvExport export_args;
                             EvExists exported_path;
                             EvRename exported_path (final_path_of target_dir name);
                             EvPrint (MsgSuccess (onnx_filename_of name)
                                                 (final_path_of target_dir name))] |}).
Proof.
  intros Hyes Hload Hexp Hout Hmv. run_script. rewrite Hyes. simpl. rewrite Hload. simpl.
  rewrite Hexp. simpl. rewrite Hout. simpl. rewrite Hmv. simpl.
  f_equal. apply world_eq; [done | trace_eq].
Qed.


(** *** One iteration, whatever the library does *)

Lemma loop_body_spec (name : string) (w : World) :
  ∃ w' evs,
    loop_body name w = (Return tt, w')
    ∧ trace w' = trace w ++ EvPrint (MsgProcessing name) :: evs
    ∧ started evs = []
    ∧ Forall (iteration_event name) evs.
Proof.
  destruct (fs_exists name (fs w)) eqn:Hyes.
  2: { eexists _, _. split; [by apply loop_body_skip|].
       split; [reflexivity|]. split; [reflexivity|]. by repeat constructor. }
  destruct (YOLO name (fs w)) as [[model|e] t1] eqn:Hload.
  2: { eexists _, _. split; [by eapply loop_body_load_raises|].
       split; [reflexivity|]. split; [reflexivity|]. by repeat constructor. }
  destruct (model_export model export_args t1) as [[exported_path|e] t2] eqn:Hexp.
  2: { eexists _, _. split; [by eapply loop_body_export_raises|].
       split; [reflexivity|]. split; [reflexivity|]. by repeat constructor. }
  destruct (fs_exists exported_path t2) eqn:Hout.
  2: { eexists _, _. split; [by eapply loop_body_missing|].
       split; [reflexivity|]. split; [reflexivity|]. by repeat constructor. }
  destruct (fs_rename exported_path (final_path_of target_dir name) t2)
    as [[[]|e] t3] eqn:Hmv.
  - eexists _, _. split; [by eapply loop_body_moved|].
    split; [reflexivity|]. split; [reflexivity|]. by repeat constructor.
  - eexists _, _. split; [by eapply loop_body_rename_raises|].
    split; [reflexivity|]. split; [reflexivity|]. by repeat constructor.
Qed.

Lemma started_app (l k : list event) : started (l ++ k) = started l ++ started k.
Proof. apply omap_app. Qed.

Lemma for_each_cons (name : string) (rest : list string) (w w1 : World) :
  loop_body name w = (Return tt, w1) →
  for_each (name :: rest) loop_body w = for_each rest loop_body w1.
Proof. intros Hbody. simpl. unfold mbind, M_bind. by rewrite Hbody. Qed.

(** The loop never raises, starts every name once and in order, and adds
    only events of the iterations of its names. *)
Lemma for_each_spec (names : list string) (w : World) :
  ∃ w' evs,
    for_each names loop_body w = (Return tt, w')
    ∧ trace w' = trace w ++ evs
    ∧ started evs = names
    ∧ Forall (λ ev, ∃ name, name ∈ names ∧ iteration_event name ev) evs.
Proof.
  revert w. induction names as [|name rest IH]; intros w.
  - exists w, []. split; [reflexivity|]. split; [by rewrite app_nil_r|]. by split.
  - destruct (loop_body_spec name w) as (w1 & evs1 & Hbody & Htr1 & Hst1 & Hev1).
    destruct (IH w1) as (w2 & evs2 & Hrest & Htr2 & Hst2 & Hev2).
    exists w2, (EvPrint (MsgProcessing name) :: evs1 ++ evs2).
    split; [by rewrite (for_each_cons _ _ _ _ Hbody)|].
    split; [by rewrite Htr2, Htr1, <- app_assoc|].
    split.
    + change (started (EvPrint (MsgProcessing name) :: evs1 ++ evs2))
        with (name :: started (evs1 ++ evs2)).
      by rewrite started_app, Hst1, Hst2.
    + constructor; [exists name; split; [left|done]|].
      apply Forall_app. split.
      * eapply Forall_impl; [exact Hev1|]. intros ev Hev. exists name. split; [left|done].
      * eapply Forall_impl; [exact Hev2|]. intros ev (n & Hn & Hev).
        exists n. split; [by right|done].
Qed.


(** *** The file tree *)

Lemma node_at_file (t : FS) (l : loc) (c : string) :
  node_at t l = Some (File c) → t !! l = Some (File c).
Proof. by destruct l. Qed.

(** [os.makedirs] keeps what is there. *)
Lemma mkdirs_keeps (todo : list string) (done : loc) (t t' : FS) (r : outcome unit)
    (l : loc) (n : node) :
  mkdirs done todo t = (r, t') → t !! l = Some n → t' !! l = Some n.
Proof.
  revert done t. induction todo as [|c todo IH]; intros done t Hrun Hl.
  - by simplify_eq/=.
  - simpl in Hrun. destruct (t !! (done ++ [c])) as [[content|]|] eqn:Hc.
    + by simplify_eq.
    + by eapply IH.
    + destruct (os_denies _ _); [by simplify_eq|].
      eapply IH; [exact Hrun|].
      rewrite lookup_insert_ne; [done|]. intros <-. congruence.
Qed.

(** When it returns, every component of the path is a directory. *)
Lemma mkdirs_makes (todo : list string) (done : loc) (t t' : FS) (l : loc) :
  mkdirs done todo t = (Return tt, t') →
  l `prefix_of` done ++ todo → length done < length l →
  t' !! l = Some Dir.
Proof.
  revert done t. induction todo as [|c todo IH]; intros done t Hrun Hpre Hlen.
  - rewrite app_nil_r in Hpre. apply prefix_length in Hpre. lia.
  - assert (l = done ++ [c] ∨ length (done ++ [c]) < length l) as [->|Hlonger].
    { destruct (decide (length l = S (length done))) as [Heq|]; [left|right].
      - destruct Hpre as [k Hk].
        assert (take (length l) (done ++ c :: todo) = l) as <-.
        { by rewrite Hk, take_app_length. }
        rewrite Heq, (cons_middle c done todo), app_assoc.
        rewrite take_app_length'; [done|]. rewrite length_app. simpl. lia.
      - rewrite length_app. simpl. lia. }
    + simpl in Hrun. destruct (t !! (done ++ [c])) as [[content|]|] eqn:Hc.
      * by simplify_eq.
      * by eapply mkdirs_keeps.
      * destruct (os_denies _ _); [by simplify_eq|].
        eapply mkdirs_keeps; [exact Hrun|]. apply lookup_insert_eq.
    + rewrite (cons_middle c done todo), app_assoc in Hpre.
      simpl in Hrun. destruct (t !! (done ++ [c])) as [[content|]|] eqn:Hc.
      * by simplify_eq.
      * by eapply IH.
      * destruct (os_denies _ _); [by simplify_eq|]. by eapply IH.
Qed.

(** Where every component is a directory already, it changes nothing. *)
Lemma mkdirs_existing (todo : list string) (here : loc) (t : FS) :
  (∀ l, l `prefix_of` here ++ todo → length here < length l → t !! l = Some Dir) →
  mkdirs here todo t = (Return tt, t).
Proof.
  revert here. induction todo as [|c todo IH]; intros here Hdirs; [reflexivity|].
  simpl. rewrite (Hdirs (here ++ [c])).
  - apply IH. intros l Hpre Hlen. apply Hdirs.
    + by rewrite (cons_middle c here todo), app_assoc.
    + rewrite length_app in Hlen. simpl in Hlen. lia.
  - exists todo. by rewrite <- app_assoc.
  - rewrite length_app. simpl. lia.
Qed.

Lemma fs_makedirs_existing (p : string) (t : FS) :
  p ≠ "" →
  (∀ l, l `prefix_of` resolve cwd p → is_dir t l = true) →
  fs_makedirs p t = (Return tt, t).
Proof.
  intros Hp Hdirs. unfold fs_makedirs. rewrite (bool_decide_eq_false_2 _ Hp).
  apply mkdirs_existing. intros l Hpre Hlen. specialize (Hdirs l Hpre).
  unfold is_dir in Hdirs. destruct l as [|c l]; [simpl in Hlen; lia|].
  simpl in Hdirs. by destruct (t !! (c :: l)) as [[]|].
Qed.

Lemma fs_makedirs_spec (p : string) (t t' : FS) :
  fs_makedirs p t = (Return tt, t') →
  (∀ l, l `prefix_of` resolve cwd p → is_dir t' l = true)
  ∧ (∀ l n, t !! l = Some n → t' !! l = Some n).
Proof.
  unfold fs_makedirs. case_bool_decide; [done|]. intros Hrun. split.
  - intros l Hpre. unfold is_dir. destruct l as [|c l]; [done|].
    simpl. erewrite mkdirs_makes; [done | exact Hrun | done | simpl; lia].
  - intros l n. by eapply mkdirs_keeps.
Qed.

(** A failed [os.rename] changes nothing. *)
Lemma fs_rename_raises_unchanged (src dst : string) (t t' : FS) (e : exception) :
  fs_rename src dst t = (Raise e, t') → t' = t.
Proof. unfold fs_rename. intros Hmv. repeat case_match; by simplify_eq. Qed.

Lemma move_tree_frame (s d l : loc) (t : FS) :
  ¬ s `prefix_of` l → ¬ d `prefix_of` l → move_tree s d t !! l = t !! l.
Proof.
  intros Hs Hd. unfold move_tree. rewrite lookup_union_r.
  - apply option_eq. intros n. rewrite map_lookup_filter_Some. simpl.
    rewrite lookup_delete_ne; [|intros ->; by apply Hd].
      split; [by intros [? _] | by intros ?; split].
  - apply not_elem_of_list_to_map_1. rewrite <- list_fmap_compose.
    intros ([k n] & -> & _)%list_elem_of_fmap. simpl in Hd.
    apply Hd. by apply prefix_app_r.
Qed.

(** [os.rename] touches the source and the destination, and what lies
    below them, only. *)
Lemma fs_rename_frame (src dst : string) (t t' : FS) (l : loc) :
  fs_rename src dst t = (Return tt, t') →
  ¬ resolve cwd src `prefix_of` l → ¬ resolve cwd dst `prefix_of` l →
  t' !! l = t !! l.
Proof.
  unfold fs_rename. intros Hmv Hs Hd.
  assert (l ≠ resolve cwd src) by (by intros ->).
  assert (l ≠ resolve cwd dst) by (by intros ->).
  repeat case_match; simplify_eq;
    by rewrite ?lookup_insert_ne, ?lookup_delete_ne, ?move_tree_frame.
Qed.

(** When the source is a regular file, nothing else than these two
    locations changes. *)
Lemma fs_rename_frame_file (src dst c : string) (t t' : FS) (l : loc) :
  fs_rename src dst t = (Return tt, t') →
  node_at t (resolve cwd src) = Some (File c) →
  l ≠ resolve cwd src → l ≠ resolve cwd dst →
  t' !! l = t !! l.
Proof.
  unfold fs_rename. intros Hmv Hsrc Hs Hd. rewrite Hsrc in Hmv.
  repeat case_match; simplify_eq;
    by rewrite ?lookup_insert_ne, ?lookup_delete_ne.
Qed.

(** A regular file renamed onto a regular file replaces it. *)
Lemma fs_rename_overwrites (src dst artifact old : string) (t : FS) :
  src ≠ "" → dst ≠ "" →
  node_at t (resolve cwd src) = Some (File artifact) →
  node_at t (resolve cwd dst) = Some (File old) →
  os_denies (SysRename (resolve cwd src) (resolve cwd dst)) t = None →
  ∃ t', fs_rename src dst t = (Return tt, t')
        ∧ t' !! resolve cwd dst = Some (File artifact).
Proof.
  intros Hsrc Hdst Hs Hd Hok. unfold fs_rename.
  rewrite bool_decide_eq_false_2 by (by intros [?|?]). rewrite Hs, Hok.
  case_bool_decide as Hsame.
  - exists t. split; [done|]. rewrite <- Hsame. by apply node_at_file.
  - rewrite Hd. eexists. split; [done|]. apply lookup_insert_eq.
Qed.


(** *** The whole run *)

Lemma console_app (l k : list event) : console (l ++ k) = console l ++ console k.
Proof. apply omap_app. Qed.

Lemma export_models_makedirs_raises (w : World) (e : exception) (t' : FS) :
  fs_makedirs target_dir (fs w) = (Raise e, t') →
  export_models w
  = (Raise e, {| fs := t'; trace := trace w ++ [EvMakedirs target_dir] |}).
Proof.
  intros Hmk. unfold export_models, os_makedirs, emit, on_fs, mbind, M_bind.
  cbn [fs trace]. by rewrite Hmk.
Qed.

Lemma export_models_makedirs_returns (w : World) (t' : FS) :
  fs_makedirs target_dir (fs w) = (Return tt, t') →
  export_models w
  = for_each model_names loop_body
      {| fs := t';
         trace := trace w ++ [EvMakedirs target_dir; EvPrint (MsgExporting target_dir)] |}.
Proof.
  intros Hmk. unfold export_models, os_makedirs, print, emit, on_fs, mbind, M_bind.
  cbn [fs trace]. rewrite Hmk. cbn [fs trace].
  by rewrite <- app_assoc.
Qed.

Lemma export_models_spec (w : World) (t' : FS) :
  fs_makedirs target_dir (fs w) = (Return tt, t') →
  ∃ w' evs,
    export_models w = (Return tt, w')
    ∧ trace w'
      = trace w ++ EvMakedirs target_dir :: EvPrint (MsgExporting target_dir) :: evs
    ∧ started evs = model_names
    ∧ Forall run_event evs.
Proof.
  intros Hmk. rewrite (export_models_makedirs_returns _ _ Hmk).
  destruct (for_each_spec model_names
              {| fs := t';
                 trace := trace w ++ [EvMakedirs target_dir;
                                      EvPrint (MsgExporting target_dir)] |})
    as (w' & evs & Hrun & Htr & Hst & Hev).
  exists w', evs. split; [done|]. split; [|done].
  rewrite Htr. simpl. by rewrite <- app_assoc.
Qed.

Lemma main_of_export_models (w w' : World) :
  export_models w = (Return tt, w') →
  main w = (Return tt, {| fs := fs w'; trace := trace w' ++ [EvPrint MsgComplete] |}).
Proof. intros Hrun. unfold main, mbind, M_bind. by rewrite Hrun. Qed.

(** *** The claims *)

(** C1. A failure raised while a checkpoint is loaded or exported is caught
    by that checkpoint's iteration: the iteration returns normally, the last
    thing it does is print the error line with the checkpoint's name and
    [str(e)], and the loop goes on with the next name.  No iteration ever
    raises, so the loop over any list returns normally, having started
    every name of the list once and in order. *)
Theorem library_failure_is_contained
    (name : string) (rest : list string) (w : World) (e : exception) (t' : FS) :
  fs_exists name (fs w) = true →
  (YOLO name (fs w) = (Raise e, t')
   ∨ ∃ model t1, YOLO name (fs w) = (Return model, t1)
                 ∧ model_export model export_args t1 = (Raise e, t')) →
  ∃ w1 evs,
    loop_body name w = (Return tt, w1)
    ∧ fs w1 = t'
    ∧ trace w1 = trace w ++ evs ++ [EvPrint (MsgError name e)]
    ∧ console (trace w1)
      = console (trace w) ++ console evs
        ++ ["Error exporting " +:+ name +:+ ": " +:+ exc_str e]
    ∧ for_each (name :: rest) loop_body w = for_each rest loop_body w1
    ∧ ∀ (names : list string) (w0 : World),
        ∃ w2 evs2,
          for_each names loop_body w0 = (Return tt, w2)
          ∧ trace w2 = trace w0 ++ evs2
          ∧ started evs2 = names.
Proof.
  intros Hyes Hfail.
  assert (∃ evs, loop_body name w
                 = (Return tt, {| fs := t';
                                  trace := trace w ++ evs ++ [EvPrint (MsgError name e)] |}))
    as [evs Hbody].
  { destruct Hfail as [Hload | (model & t1 & Hload & Hexp)].
    - exists [EvPrint (MsgProcessing name); EvExists name; EvLoad name].
      by apply loop_body_load_raises.
    - exists [EvPrint (MsgProcessing name); EvExists name; EvLoad name;
              EvExport export_args].
      by eapply loop_body_export_raises. }
  eexists _, evs. split; [exact Hbody|]. simpl.
  split; [done|]. split; [done|].
  split; [by rewrite !console_app|].
  split; [by apply for_each_cons|].
  intros names w0.
  destruct (for_each_spec names w0) as (w2 & evs2 & Hrun & Htr & Hst & _).
  by exists w2, evs2.
Qed.

(** C2. When the checkpoint file does not exist, the iteration prints its
    start, asks whether the file exists and prints the skip notice, and
    that is all: no call into the library, the tree untouched, a normal
    return, and the loop goes on with the next name. *)
Theorem missing_checkpoint_is_skipped (name : string) (rest : list string) (w : World) :
  fs_exists name (fs w) = false →
  ∃ w1 evs,
    loop_body name w = (Return tt, w1)
    ∧ fs w1 = fs w
    ∧ trace w1 = trace w ++ evs
    ∧ evs = [EvPrint (MsgProcessing name); EvExists name; EvPrint (MsgSkipping name)]
    ∧ Forall (λ ev, is_library_call ev = false) evs
    ∧ console evs = [nl +:+ "Processing " +:+ name +:+ "...";
                     "Skipping " +:+ name +:+ ": file not found."]
    ∧ for_each (name :: rest) loop_body w = for_each rest loop_body w1.
Proof.
  intros Hno. pose proof (loop_body_skip name w Hno) as Hbody.
  eexists _, _. split; [exact Hbody|]. simpl.
  split; [done|]. split; [done|]. split; [done|].
  split; [by repeat constructor|]. split; [done|].
  by apply for_each_cons.
Qed.

(** C3. For each of the names the script processes (the ten of
    [model_names]), the destination path is [target_dir], a separator, the
    name without its extension, and [.onnx]; this is the path every rename
    of that name's iteration has as its destination. *)
Theorem destination_path_of_listed_name (name : string) :
  name ∈ model_names →
  onnx_filename_of name = strip_extension name +:+ ".onnx"
  ∧ final_path_of target_dir name
    = target_dir +:+ "/" +:+ strip_extension name +:+ ".onnx"
  ∧ ∀ (w : World) (src dst : string),
      EvRename src dst ∈ trace (loop_body name w).2 →
      EvRename src dst ∈ trace w
      ∨ dst = target_dir +:+ "/" +:+ strip_extension name +:+ ".onnx".
Proof.
  intros Hin.
  assert (Py.startswith "/" (onnx_filename_of name) = false
          ∧ onnx_filename_of name = strip_extension name +:+ ".onnx") as [Hrel Hname].
  { unfold model_names in Hin.
    repeat (apply elem_of_cons in Hin as [-> | Hin]; [by split|]).
    by apply elem_of_nil in Hin. }
  assert (final_path_of target_dir name
          = target_dir +:+ "/" +:+ strip_extension name +:+ ".onnx") as Hpath.
  { unfold target_dir. rewrite (final_path_of_plain _ _ Hrel). by rewrite Hname. }
  split; [done|]. split; [done|].
  intros w src dst Hev.
  destruct (loop_body_spec name w) as (w1 & evs & Hbody & Htr & _ & Hevs).
  rewrite Hbody in Hev. simpl in Hev. rewrite Htr in Hev.
  apply elem_of_app in Hev as [Hold | Hnew]; [by left|right].
  apply elem_of_cons in Hnew as [Hfirst | Hnew]; [done|].
  rewrite Forall_forall in Hevs. specialize (Hevs _ Hnew). simpl in Hevs.
  by rewrite Hevs.
Qed.

(** C4. When the export returns a path at which nothing exists, the
    iteration prints the warning and does nothing else: the export was
    called once, nothing is renamed, so the tree is the one the exporter
    left (the script creates nothing at the destination), the iteration
    returns normally and the loop goes on with the next name. *)
Theorem missing_output_is_warned
    (name : string) (rest : list string) (w : World) (model : Model)
    (exported_path : string) (t1 t2 : FS) :
  fs_exists name (fs w) = true →
  YOLO name (fs w) = (Return model, t1) →
  model_export model export_args t1 = (Return exported_path, t2) →
  fs_exists exported_path t2 = false →
  ∃ w1 evs,
    loop_body name w = (Return tt, w1)
    ∧ fs w1 = t2
    ∧ trace w1 = trace w ++ evs
    ∧ evs = [EvPrint (MsgProcessing name); EvExists name; EvLoad name;
             EvExport export_args; EvExists exported_path;
             EvPrint (MsgWarning exported_path)]
    ∧ mutations evs = []
    ∧ fs w1 !! resolve cwd (final_path_of target_dir name)
      = t2 !! resolve cwd (final_path_of target_dir name)
    ∧ for_each (name :: rest) loop_body w = for_each rest loop_body w1.
Proof.
  intros Hyes Hload Hexp Hout.
  pose proof (loop_body_missing name w model exported_path t1 t2 Hyes Hload Hexp Hout)
    as Hbody.
  eexists _, _. split; [exact Hbody|]. simpl.
  split; [done|]. split; [done|]. split; [done|].
  split; [done|]. split; [done|].
  by apply for_each_cons.
Qed.


(** C5. [os.makedirs] is the first thing [export_models] does.  When it
    returns, the destination directory and every directory above it exist,
    what existed before is still there (nothing at all changes when the
    directories were there already), and the loop over the checkpoints
    starts from that tree: every existence check, load, export and rename
    comes later in the trace. *)
Theorem destination_directory_is_made_first (w : World) (t' : FS) :
  fs_makedirs target_dir (fs w) = (Return tt, t') →
  (∀ l, l `prefix_of` resolve cwd target_dir → is_dir t' l = true)
  ∧ (∀ l n, fs w !! l = Some n → t' !! l = Some n)
  ∧ ((∀ l, l `prefix_of` resolve cwd target_dir → is_dir (fs w) l = true) → t' = fs w)
  ∧ export_models w
    = for_each model_names loop_body
        {| fs := t';
           trace := trace w ++ [EvMakedirs target_dir;
                                EvPrint (MsgExporting target_dir)] |}
  ∧ ∃ w' evs,
      export_models w = (Return tt, w')
      ∧ trace w'
        = trace w ++ EvMakedirs target_dir :: EvPrint (MsgExporting target_dir) :: evs
      ∧ started evs = model_names
      ∧ Forall run_event evs.
Proof.
  intros Hmk. destruct (fs_makedirs_spec _ _ _ Hmk) as [Hdirs Hkeeps].
  split; [done|]. split; [done|].
  split.
  { intros Hthere.
    pose proof (fs_makedirs_existing target_dir (fs w) (target_dir_of_nonempty _) Hthere).
    congruence. }
  split; [by apply export_models_makedirs_returns|].
  by apply (export_models_spec w t').
Qed.

(** Every export a run of the script records carries the arguments of
    lines 42 to 49. *)
Lemma export_events_carry_the_arguments (w : World) :
  ∃ evs,
    trace (main w).2 = trace w ++ evs
    ∧ Forall (λ ev, ∀ args, ev = EvExport args →
                args = export_args
                ∧ format args = "onnx" ∧ imgsz args = 640%Z
                ∧ simplify args = true ∧ dynamic args = false
                ∧ half args = true ∧ opset args = 17%Z) evs.
Proof.
  destruct (fs_makedirs target_dir (fs w)) as [[[]|e] t'] eqn:Hmk.
  - destruct (export_models_spec w t' Hmk) as (w' & evs & Hrun & Htr & _ & Hevs).
    rewrite (main_of_export_models _ _ Hrun). simpl. rewrite Htr.
    exists (EvMakedirs target_dir :: EvPrint (MsgExporting target_dir)
            :: evs ++ [EvPrint MsgComplete]).
    split; [by rewrite <- app_assoc|].
    constructor; [done|]. constructor; [done|].
    apply Forall_app. split; [|by repeat constructor].
    eapply Forall_impl; [exact Hevs|].
    intros ev (name & _ & Hev) args ->. simpl in Hev. by subst args.
  - exists [EvMakedirs target_dir]. unfold main, mbind, M_bind.
    rewrite (export_models_makedirs_raises _ _ _ Hmk). simpl.
    split; [done|]. by repeat constructor.
Qed.

(** C7. When the export has written a regular file at the path it reports
    and a regular file already stands at the destination path, the
    iteration renames the one onto the other without asking: unless the
    operating system refuses the rename, the iteration ends with the
    success line and the destination holds the bytes just exported, not
    the old ones. *)
Theorem move_replaces_existing_destination
    (name : string) (w : World) (model : Model) (exported_path : string)
    (t1 t2 : FS) (artifact old : string) :
  fs_exists name (fs w) = true →
  YOLO name (fs w) = (Return model, t1) →
  model_export model export_args t1 = (Return exported_path, t2) →
  exported_path ≠ "" →
  node_at t2 (resolve cwd exported_path) = Some (File artifact) →
  node_at t2 (resolve cwd (final_path_of target_dir name)) = Some (File old) →
  os_denies (SysRename (resolve cwd exported_path)
                       (resolve cwd (final_path_of target_dir name))) t2 = None →
  ∃ w1,
    loop_body name w = (Return tt, w1)
    ∧ fs w1 !! resolve cwd (final_path_of target_dir name) = Some (File artifact)
    ∧ trace w1
      = trace w ++ [EvPrint (MsgProcessing name); EvExists name; EvLoad name;
                    EvExport export_args; EvExists exported_path;
                    EvRename exported_path (final_path_of target_dir name);
                    EvPrint (MsgSuccess (onnx_filename_of name)
                                        (final_path_of target_dir name))].
Proof.
  intros Hyes Hload Hexp Hpath Hsrc Hdst Hok.
  destruct (fs_rename_overwrites exported_path (final_path_of target_dir name)
              artifact old t2 Hpath (final_path_of_nonempty _ _) Hsrc Hdst Hok)
    as (t3 & Hmv & Hnew).
  assert (fs_exists exported_path t2 = true) as Hout.
  { unfold fs_exists. rewrite bool_decide_eq_false_2 by done.
    apply bool_decide_eq_true. by rewrite Hsrc. }
  eexists. split; [by eapply loop_body_moved|]. by split.
Qed.

(** In [M], where nothing disturbs the process: when [os.makedirs] raises,
    the exception leaves [export_models] and the script at once, nothing
    printed and no checkpoint looked at; when it returns, the script
    returns. *)
Lemma main_raises_only_from_makedirs (w : World) :
  (∀ e t', fs_makedirs target_dir (fs w) = (Raise e, t') →
           main w = (Raise e, {| fs := t'; trace := trace w ++ [EvMakedirs target_dir] |}))
  ∧ (∀ t', fs_makedirs target_dir (fs w) = (Return tt, t') →
           ∃ w', main w = (Return tt, w')
                 ∧ last (trace w') = Some (EvPrint MsgComplete))
  ∧ (∀ e w', main w = (Raise e, w') →
             ∃ t', fs_makedirs target_dir (fs w) = (Raise e, t')).
Proof.
  assert (∀ e t', fs_makedirs target_dir (fs w) = (Raise e, t') →
            main w = (Raise e, {| fs := t'; trace := trace w ++ [EvMakedirs target_dir] |}))
    as Hfatal.
  { intros e t' Hmk. unfold main, mbind, M_bind.
    by rewrite (export_models_makedirs_raises _ _ _ Hmk). }
  assert (∀ t', fs_makedirs target_dir (fs w) = (Return tt, t') →
            ∃ w', main w = (Return tt, w') ∧ last (trace w') = Some (EvPrint MsgComplete))
    as Hruns.
  { intros t' Hmk.
    destruct (export_models_spec w t' Hmk) as (w' & evs & Hrun & _).
    eexists. split; [by apply main_of_export_models|]. simpl. apply last_snoc. }
  split; [done|]. split; [done|].
  intros e w' Hmain.
  destruct (fs_makedirs target_dir (fs w)) as [[[]|e'] t'] eqn:Hmk.
  - destruct (Hruns t' eq_refl) as (w'' & Hret & _). congruence.
  - exists t'. rewrite (Hfatal e' t' eq_refl) in Hmain. congruence.
Qed.

(** C9. A failure of the rename itself is caught like the others: the
    iteration prints the error line with the checkpoint's name and
    [str(e)], leaves the tree as the exporter left it, returns normally,
    and the loop goes on with the next name and finishes the list. *)
Theorem rename_failure_is_contained
    (name : string) (rest : list string) (w : World) (model : Model)
    (exported_path : string) (e : exception) (t1 t2 t3 : FS) :
  fs_exists name (fs w) = true →
  YOLO name (fs w) = (Return model, t1) →
  model_export model export_args t1 = (Return exported_path, t2) →
  fs_exists exported_path t2 = true →
  fs_rename exported_path (final_path_of target_dir name) t2 = (Raise e, t3) →
  ∃ w1,
    loop_body name w = (Return tt, w1)
    ∧ fs w1 = t2
    ∧ trace w1
      = trace w ++ [EvPrint (MsgProcessing name); EvExists name; EvLoad name;
                    EvExport export_args; EvExists exported_path;
                    EvRename exported_path (final_path_of target_dir name);
                    EvPrint (MsgError name e)]
    ∧ last (console (trace w1))
      = Some ("Error exporting " +:+ name +:+ ": " +:+ exc_str e)
    ∧ for_each (name :: rest) loop_body w = for_each rest loop_body w1
    ∧ ∃ w2 evs2,
        for_each rest loop_body w1 = (Return tt, w2)
        ∧ trace w2 = trace w1 ++ evs2
        ∧ started evs2 = rest.
Proof.
  intros Hyes Hload Hexp Hout Hmv.
  pose proof (fs_rename_raises_unchanged _ _ _ _ _ Hmv) as ->.
  pose proof (loop_body_rename_raises name w model exported_path e t1 t2 t2
                Hyes Hload Hexp Hout Hmv) as Hbody.
  eexists. split; [exact Hbody|]. simpl.
  split; [done|]. split; [done|].
  split; [by rewrite console_app, last_app|].
  split; [by apply for_each_cons|].
  match goal with |- context [for_each rest loop_body ?w1] =>
    destruct (for_each_spec rest w1) as (w2 & evs2 & Hrun & Htr & Hst & _) end.
  by exists w2, evs2.
Qed.


(** What an iteration does to the tree: nothing of its own, or the one
    rename of the reported path to the destination path. *)
Lemma loop_body_tree (name : string) (w : World) :
  ∃ w1 evs,
    loop_body name w = (Return tt, w1)
    ∧ trace w1 = trace w ++ evs
    ∧ ((fs w1 = library_tree name (fs w)
        ∧ (mutations evs = []
           ∨ ∃ src, reported_path name (fs w) = Some src
                    ∧ mutations evs = [EvRename src (final_path_of target_dir name)]))
       ∨ (∃ src, reported_path name (fs w) = Some src
                 ∧ mutations evs = [EvRename src (final_path_of target_dir name)]
                 ∧ fs_rename src (final_path_of target_dir name)
                     (library_tree name (fs w)) = (Return tt, fs w1)
                 ∧ (EvPrint (MsgSkipping name) ∉ evs)
                 ∧ ∀ e, EvPrint (MsgError name e) ∉ evs)).
Proof.
  unfold library_tree, reported_path.
  destruct (fs_exists name (fs w)) eqn:Hyes.
  2: { eexists _, _. split; [by apply loop_body_skip|].
       split; [done|]. left. split; [done|]. by left. }
  destruct (YOLO name (fs w)) as [[model|e] t1] eqn:Hload.
  2: { eexists _, _. split; [by eapply loop_body_load_raises|].
       split; [done|]. left. split; [done|]. by left. }
  destruct (model_export model export_args t1) as [[exported_path|e] t2] eqn:Hexp.
  2: { eexists _, _. split; [by eapply loop_body_export_raises|].
       split; [done|]. left. split; [done|]. by left. }
  destruct (fs_exists exported_path t2) eqn:Hout.
  2: { eexists _, _. split; [by eapply loop_body_missing|].
       split; [done|]. left. split; [done|]. by left. }
  destruct (fs_rename exported_path (final_path_of target_dir name) t2)
    as [[[]|e] t3] eqn:Hmv.
  - eexists _, _. split; [by eapply loop_body_moved|].
    split; [done|]. right. exists exported_path. simpl.
    split; [done|]. split; [done|]. split; [done|].
    split.
    + intros Hin. repeat (apply elem_of_cons in Hin as [Hin|Hin]; [done|]).
      by apply elem_of_nil in Hin.
    + intros e Hin. repeat (apply elem_of_cons in Hin as [Hin|Hin]; [done|]).
      by apply elem_of_nil in Hin.
  - eexists _, _. split; [by eapply loop_body_rename_raises|].
    split; [done|]. left. simpl.
    split; [by eapply fs_rename_raises_unchanged|].
    right. by exists exported_path.
Qed.

(** X10. Whatever the exporter reports, an iteration changes the tree by
    at most one operation of its own, the rename of the reported path to
    the destination path of its name.  Compared with the tree the library
    calls left, every location is unchanged that is neither the
    destination path nor the reported path, which the move vacates (nor
    below one of them, should the reported path be a directory); and an
    iteration that renames nothing, skips or ends in an error leaves that
    tree as it is. *)
Theorem iteration_changes_only_by_its_move (name : string) (w : World) :
  ∃ w1 evs,
    loop_body name w = (Return tt, w1)
    ∧ trace w1 = trace w ++ evs
    ∧ (mutations evs = []
       ∨ ∃ src, reported_path name (fs w) = Some src
                ∧ mutations evs = [EvRename src (final_path_of target_dir name)])
    ∧ (mutations evs = [] → fs w1 = library_tree name (fs w))
    ∧ (EvPrint (MsgSkipping name) ∈ evs ∨ (∃ e, EvPrint (MsgError name e) ∈ evs) →
       fs w1 = library_tree name (fs w))
    ∧ (∀ l : loc,
         ¬ resolve cwd (final_path_of target_dir name) `prefix_of` l →
         (∀ src, reported_path name (fs w) = Some src → ¬ resolve cwd src `prefix_of` l) →
         fs w1 !! l = library_tree name (fs w) !! l)
    ∧ (∀ l : loc,
         l ≠ resolve cwd (final_path_of target_dir name) →
         (∀ src, reported_path name (fs w) = Some src →
                 l ≠ resolve cwd src
                 ∧ ∃ c, node_at (library_tree name (fs w)) (resolve cwd src)
                        = Some (File c)) →
         fs w1 !! l = library_tree name (fs w) !! l).
Proof.
  destruct (loop_body_tree name w)
    as (w1 & evs & Hbody & Htr
        & [[Hsame Hmut] | (src & Hsrc & Hmut & Hmv & Hskip & Herr)]).
  - exists w1, evs. rewrite Hsame. by repeat split.
  - exists w1, evs. split; [done|]. split; [done|].
    split; [right; by exists src|].
    split; [by rewrite Hmut|].
    split; [intros [Hin | [e Hin]]; [by destruct Hskip | by destruct (Herr e)]|].
    split.
    + intros l Hdst Hnot. eapply fs_rename_frame; [exact Hmv | by apply Hnot | done].
    + intros l Hdst Hnot. destruct (Hnot src Hsrc) as [Hne [c Hfile]].
      by eapply fs_rename_frame_file.
Qed.

(** *** Where the paths of the script lead *)

Lemma append_empty_r (x : string) : x +:+ "" = x.
Proof. induction x as [|a x IH]; [reflexivity|]. by rewrite append_cons, IH. Qed.

Lemma split_sep_plain (s cur : string) :
  Py.contains_char Py.sep s = false → Py.split_sep cur s = [cur +:+ s].
Proof.
  revert cur. induction s as [|c s IH]; intros cur Hno.
  - by rewrite append_empty_r.
  - simpl in Hno. apply orb_false_elim in Hno as [Hc Hs].
    simpl. rewrite Hc, (IH _ Hs). by rewrite append_assoc.
Qed.

Lemma split_sep_append (x y cur : string) :
  Py.split_sep cur (x +:+ String "/" y) = Py.split_sep cur x ++ Py.split_sep "" y.
Proof.
  revert cur. induction x as [|c x IH]; intros cur; [reflexivity|].
  rewrite append_cons. simpl. destruct (bool_decide (c = Py.sep)).
  - by rewrite IH.
  - apply IH.
Qed.

Lemma startswith_sep_append (x y : string) :
  x ≠ "" → Py.startswith "/" (x +:+ y) = Py.startswith "/" x.
Proof.
  intros Hx. destruct x as [|a x]; [done|].
  rewrite append_cons. simpl. by destruct (bool_decide _).
Qed.

(** A path and, after a separator, more components: the walk goes on from
    where the path leads. *)
Lemma resolve_append (dir rest : string) :
  dir ≠ "" →
  resolve cwd (dir +:+ String "/" rest)
  = foldl walk (resolve cwd dir) (Py.split_sep "" rest).
Proof.
  intros Hdir. unfold resolve.
  by rewrite (startswith_sep_append _ _ Hdir), split_sep_append, foldl_app.
Qed.

(** A plain file name after a directory is an entry of that directory. *)
Lemma resolve_entry (dir fn : string) :
  dir ≠ "" →
  Py.contains_char Py.sep fn = false →
  fn ≠ "" → fn ≠ "." → fn ≠ ".." →
  resolve cwd (dir +:+ String "/" fn) = resolve cwd dir ++ [fn].
Proof.
  intros Hdir Hplain H0 H1 H2.
  rewrite (resolve_append _ _ Hdir), (split_sep_plain _ _ Hplain). simpl.
  unfold walk. rewrite bool_decide_eq_false_2 by (by intros [?|?]).
  by rewrite bool_decide_eq_false_2.
Qed.

Lemma endswith_char_split (c : ascii) (s : string) :
  Py.endswith_char c s = true → ∃ s', s = s' +:+ String c "".
Proof.
  induction s as [|a s IH]; [done|]. destruct s as [|b s].
  - simpl. intros ->%bool_decide_eq_true. by exists "".
  - intros Hend. destruct (IH Hend) as [s' Hs']. exists (String a s').
    by rewrite append_cons, <- Hs'.
Qed.

(** [target_dir], written out. *)
Lemma target_dir_of_value (f : string) :
  target_dir_of f
  = (if bool_decide (Py.dirname f = "") || Py.endswith_char Py.sep (Py.dirname f)
     then Py.dirname f else Py.dirname f +:+ "/")
    +:+ "../public/models/yolo26".
Proof.
  unfold target_dir_of, Py.join. simpl foldl.
  set (x0 := if bool_decide (Py.dirname f = "") || Py.endswith_char Py.sep (Py.dirname f)
             then Py.dirname f else Py.dirname f +:+ "/").
  assert (Py.join_step (Py.dirname f) ".." = x0 +:+ "..") as ->.
  { unfold Py.join_step, x0. simpl Py.startswith.
    destruct (_ || _); [done|]. by rewrite append_assoc. }
  rewrite (join_step_plain x0 "." "public" "."); [|done..].
  rewrite append_assoc. change (".." +:+ String "/" "public") with "../public".
  rewrite (join_step_plain x0 "./public" "models" "."); [|done..].
  rewrite append_assoc. change ("../public" +:+ String "/" "models") with "../public/models".
  rewrite (join_step_plain x0 "./public/models" "yolo26" "."); [|done..].
  by rewrite append_assoc.
Qed.

Lemma walk_to_target (l : loc) :
  foldl walk l (Py.split_sep "" "../public/models/yolo26")
  = parent l ++ ["public"; "models"; "yolo26"].
Proof. cbv -[parent app]. by rewrite <- !app_assoc. Qed.

Lemma resolve_absolute (p : string) (other : loc) :
  Py.startswith "/" p = true → resolve cwd p = resolve other p.
Proof. intros Habs. unfold resolve. by rewrite Habs. Qed.

Lemma dirname_absolute (f : string) :
  Py.startswith "/" f = true → Py.startswith "/" (Py.dirname f) = true.
Proof.
  destruct f as [|a f]; [done|]. simpl.
  destruct (bool_decide ("/"%char = a)) eqn:Ha; [|done]. intros _.
  apply bool_decide_eq_true in Ha as <-.
  unfold Py.dirname. cbn [Py.head_through_sep].
  destruct (Py.contains_char Py.sep f); cbn [Py.rstrip_sep]; [|reflexivity].
  by destruct (Py.rstrip_sep (Py.head_through_sep f)).
Qed.

Lemma resolve_plain (name : string) :
  Py.startswith "/" name = false →
  Py.contains_char Py.sep name = false →
  name ≠ "" → name ≠ "." → name ≠ ".." →
  resolve cwd name = cwd ++ [name].
Proof.
  intros Hrel Hplain H0 H1 H2. unfold resolve.
  rewrite Hrel, (split_sep_plain _ _ Hplain). simpl.
  unfold walk. rewrite bool_decide_eq_false_2 by (by intros [?|?]).
  by rewrite bool_decide_eq_false_2.
Qed.

(** The destination of a listed name is the entry of the destination
    directory called after it. *)
Lemma resolve_final_path_listed (name : string) :
  name ∈ model_names →
  resolve cwd (final_path_of target_dir name)
  = resolve cwd target_dir ++ [onnx_filename_of name].
Proof.
  intros Hin.
  assert (Py.startswith "/" (onnx_filename_of name) = false
          ∧ Py.contains_char Py.sep (onnx_filename_of name) = false
          ∧ onnx_filename_of name ≠ "" ∧ onnx_filename_of name ≠ "."
          ∧ onnx_filename_of name ≠ "..") as (Hrel & Hplain & H0 & H1 & H2).
  { unfold model_names in Hin.
    repeat (apply elem_of_cons in Hin as [-> | Hin]; [by repeat split|]).
    by apply elem_of_nil in Hin. }
  unfold target_dir. rewrite (final_path_of_plain _ _ Hrel).
  change ("/" +:+ onnx_filename_of name) with (String "/" (onnx_filename_of name)).
  apply resolve_entry; [apply target_dir_of_nonempty | done..].
Qed.

(** A regular file renamed to a free name in an existing directory. *)
Lemma fs_rename_creates (src dst artifact : string) (t : FS) :
  src ≠ "" → dst ≠ "" →
  node_at t (resolve cwd src) = Some (File artifact) →
  node_at t (resolve cwd dst) = None →
  is_dir t (parent (resolve cwd dst)) = true →
  os_denies (SysRename (resolve cwd src) (resolve cwd dst)) t = None →
  fs_rename src dst t
  = (Return tt, <[resolve cwd dst := File artifact]> (delete (resolve cwd src) t)).
Proof.
  intros Hsrc Hdst Hs Hd Hparent Hok. unfold fs_rename.
  rewrite bool_decide_eq_false_2 by (by intros [?|?]). rewrite Hs, Hok.
  rewrite bool_decide_eq_false_2 by (intros Hsame; congruence).
  by rewrite Hd, Hparent.
Qed.

(** A path that exists, renamed to itself. *)
Lemma fs_rename_same (src dst : string) (t : FS) :
  dst ≠ "" → fs_exists src t = true →
  resolve cwd src = resolve cwd dst →
  os_denies (SysRename (resolve cwd src) (resolve cwd dst)) t = None →
  fs_rename src dst t = (Return tt, t).
Proof.
  intros Hdst Hthere Hsame Hok. unfold fs_exists in Hthere. unfold fs_rename.
  destruct (bool_decide (src = "")) eqn:Hsrc; [done|].
  apply bool_decide_eq_false in Hsrc. apply bool_decide_eq_true in Hthere as [n Hn].
  rewrite bool_decide_eq_false_2 by (by intros [?|?]). rewrite Hn, Hok.
  by rewrite bool_decide_eq_true_2.
Qed.

Lemma kernel_walk_none (t : FS) (comps : list string) :
  foldl (kernel_walk t) None comps = None.
Proof. by induction comps. Qed.

Lemma kernel_walk_lexical (t : FS) (comps : list string) (start l : loc) :
  foldl (kernel_walk t) (Some start) comps = Some l → foldl walk start comps = l.
Proof.
  revert start. induction comps as [|c comps IH]; intros start; simpl.
  - by intros [= ->].
  - destruct (is_dir t start); [apply IH|]. by rewrite kernel_walk_none.
Qed.

(** Where the kernel resolves a path, the lexical resolution leads to the
    same place; so what the kernel finds, [fs_exists] finds too. *)
Lemma kernel_resolve_lexical (t : FS) (p : string) (l : loc) :
  kernel_resolve t p = Some l → p ≠ "" ∧ resolve cwd p = l.
Proof.
  unfold kernel_resolve, resolve. case_bool_decide; [done|].
  intros Hk. split; [done|]. by eapply kernel_walk_lexical.
Qed.

Lemma fs_exists_of_kernel (t : FS) (p : string) :
  kernel_exists p t = true → fs_exists p t = true.
Proof.
  unfold kernel_exists, fs_exists.
  destruct (kernel_resolve t p) as [l|] eqn:Hk; [|done].
  apply kernel_resolve_lexical in Hk as [Hp <-].
  by rewrite (bool_decide_eq_false_2 _ Hp).
Qed.

(** *** Every way through one iteration *)

Lemma loop_body_paths (name : string) (w : World) :
  ∃ w1 evs,
    loop_body name w = (Return tt, w1)
    ∧ trace w1 = trace w ++ evs
    ∧ ((fs_exists name (fs w) = false ∧ fs w1 = fs w
        ∧ evs = [EvPrint (MsgProcessing name); EvExists name;
                 EvPrint (MsgSkipping name)])
       ∨ (∃ e t1,
            fs_exists name (fs w) = true ∧ YOLO name (fs w) = (Raise e, t1)
            ∧ fs w1 = t1
            ∧ evs = [EvPrint (MsgProcessing name); EvExists name; EvLoad name;
                     EvPrint (MsgError name e)])
       ∨ (∃ model e t1 t2,
            fs_exists name (fs w) = true ∧ YOLO name (fs w) = (Return model, t1)
            ∧ model_export model export_args t1 = (Raise e, t2)
            ∧ fs w1 = t2
            ∧ evs = [EvPrint (MsgProcessing name); EvExists name; EvLoad name;
                     EvExport export_args; EvPrint (MsgError name e)])
       ∨ (∃ model p t1 t2,
            fs_exists name (fs w) = true ∧ YOLO name (fs w) = (Return model, t1)
            ∧ model_export model export_args t1 = (Return p, t2)
            ∧ fs_exists p t2 = false
            ∧ fs w1 = t2
            ∧ evs = [EvPrint (MsgProcessing name); EvExists name; EvLoad name;
                     EvExport export_args; EvExists p; EvPrint (MsgWarning p)])
       ∨ (∃ model p e t1 t2,
            fs_exists name (fs w) = true ∧ YOLO name (fs w) = (Return model, t1)
            ∧ model_export model export_args t1 = (Return p, t2)
            ∧ fs_exists p t2 = true
            ∧ fs_rename p (final_path_of target_dir name) t2 = (Raise e, t2)
            ∧ fs w1 = t2
            ∧ evs = [EvPrint (MsgProcessing name); EvExists name; EvLoad name;
                     EvExport export_args; EvExists p;
                     EvRename p (final_path_of target_dir name);
                     EvPrint (MsgError name e)])
       ∨ (∃ model p t1 t2,
            fs_exists name (fs w) = true ∧ YOLO name (fs w) = (Return model, t1)
            ∧ model_export model export_args t1 = (Return p, t2)
            ∧ fs_exists p t2 = true
            ∧ fs_rename p (final_path_of target_dir name) t2 = (Return tt, fs w1)
            ∧ evs = [EvPrint (MsgProcessing name); EvExists name; EvLoad name;
                     EvExport export_args; EvExists p;
                     EvRename p (final_path_of target_dir name);
                     EvPrint (MsgSuccess (onnx_filename_of name)
                                         (final_path_of target_dir name))])).
Proof.
  destruct (fs_exists name (fs w)) eqn:Hyes.
  2: { eexists _, _. split; [by apply loop_body_skip|]. split; [done|]. by left. }
  destruct (YOLO name (fs w)) as [[model|e] t1] eqn:Hload.
  2: { eexists _, _. split; [by eapply loop_body_load_raises|]. split; [done|].
       right; left. by exists e, t1. }
  destruct (model_export model export_args t1) as [[p|e] t2] eqn:Hexp.
  2: { eexists _, _. split; [by eapply loop_body_export_raises|]. split; [done|].
       do 2 right; left. by exists model, e, t1, t2. }
  destruct (fs_exists p t2) eqn:Hout.
  2: { eexists _, _. split; [by eapply loop_body_missing|]. split; [done|].
       do 3 right; left. by exists model, p, t1, t2. }
  destruct (fs_rename p (final_path_of target_dir name) t2) as [[[]|e] t3] eqn:Hmv.
  - eexists _, _. split; [by eapply loop_body_moved|]. split; [done|].
    do 5 right. by exists model, p, t1, t2.
  - pose proof (fs_rename_raises_unchanged _ _ _ _ _ Hmv) as ->.
    eexists _, _. split; [by eapply loop_body_rename_raises|]. split; [done|].
    do 4 right; left. by exists model, p, e, t1, t2.
Qed.

(** What the ten names of the list have in common. *)
Lemma listed_name_facts (name : string) :
  name ∈ model_names →
  Py.startswith "/" name = false
  ∧ Py.contains_char Py.sep name = false
  ∧ name ≠ "" ∧ name ≠ "." ∧ name ≠ ".."
  ∧ onnx_filename_of name ≠ name
  ∧ onnx_filename_of name = strip_extension name +:+ ".onnx".
Proof.
  intros Hin. unfold model_names in Hin.
  repeat (apply elem_of_cons in Hin as [-> | Hin]; [by repeat split|]).
  by apply elem_of_nil in Hin.
Qed.

Lemma onnx_filename_of_listed_inj (name other : string) :
  name ∈ model_names → other ∈ model_names →
  onnx_filename_of other = onnx_filename_of name → other = name.
Proof.
  intros Hn Hm Heq. unfold model_names in Hn, Hm.
  repeat (apply elem_of_cons in Hn as [-> | Hn]);
    try (by apply elem_of_nil in Hn);
    repeat (apply elem_of_cons in Hm as [-> | Hm]);
    try (by apply elem_of_nil in Hm);
    first [reflexivity | by vm_compute in Heq].
Qed.

Lemma printed_app (l k : list event) : printed (l ++ k) = printed l ++ printed k.
Proof. apply omap_app. Qed.

Lemma loads_app (l k : list event) : loads (l ++ k) = loads l ++ loads k.
Proof. apply omap_app. Qed.

Lemma library_calls_app (l k : list event) :
  library_calls (l ++ k) = library_calls l ++ library_calls k.
Proof. apply filter_app. Qed.

Lemma console_printed (evs : list event) : console evs = render <$> printed evs.
Proof.
  induction evs as [|ev evs IH]; [reflexivity|].
  destruct ev; simpl; try exact IH.
  change (render m :: console evs = render m :: (render <$> printed evs)).
  by rewrite IH.
Qed.

(** *** The destination directory and the move *)

Lemma prefix_snoc_inv (s dir : loc) (y : string) :
  s `prefix_of` dir ++ [y] → s = dir ++ [y] ∨ s `prefix_of` dir.
Proof.
  intros [k Hk]. destruct k as [|z k _] using rev_ind.
  - left. by rewrite app_nil_r in Hk.
  - right. rewrite app_assoc in Hk. apply app_inj_tail in Hk as [-> _]. by exists k.
Qed.

(** A rename whose destination is an entry of a directory leaves the other
    entries of that directory as they are, unless its source is one of
    them. *)
Lemma fs_rename_siblings (src dst : string) (t t' : FS) (dir : loc) (x : string) (l : loc) :
  fs_rename src dst t = (Return tt, t') →
  resolve cwd dst = dir ++ [x] →
  parent l = dir →
  l ≠ resolve cwd dst → l ≠ resolve cwd src →
  t' !! l = t !! l.
Proof.
  intros Hmv Hd Hpar Hld Hls.
  assert (¬ resolve cwd dst `prefix_of` l) as Hnd.
  { rewrite Hd. intros Hp. destruct l as [|c l'] eqn:Hl.
    - apply prefix_nil_inv in Hp. by destruct dir.
    - rewrite <- Hl in *. assert (l ≠ []) as Hne by (by rewrite Hl).
      rewrite (app_removelast_last "" Hne) in Hp, Hld.
      fold (parent l) in Hp, Hld. rewrite Hpar in Hp, Hld.
      apply prefix_app_inv, prefix_cons_inv_1 in Hp. apply Hld. by rewrite Hd, Hp. }
  assert (resolve cwd src `prefix_of` l →
          resolve cwd src `prefix_of` resolve cwd dst) as Hsd.
  { intros Hp. destruct l as [|c l'] eqn:Hl.
    - apply prefix_nil_inv in Hp. by destruct Hls.
    - rewrite <- Hl in *. assert (l ≠ []) as Hne by (by rewrite Hl).
      rewrite (app_removelast_last "" Hne) in Hp, Hls.
      fold (parent l) in Hp, Hls. rewrite Hpar in Hp, Hls.
      apply prefix_snoc_inv in Hp as [Hp|Hp]; [by destruct Hls|].
      rewrite Hd. by apply prefix_app_r. }
  unfold fs_rename in Hmv.
  repeat case_match; simplify_eq; try done;
    rewrite ?lookup_insert_ne, ?lookup_delete_ne by done; try done;
    (apply move_tree_frame; [|done]);
    intros Hp; apply Hsd in Hp;
    match goal with H : bool_decide _ = false |- _ =>
      by apply bool_decide_eq_false in H end.
Qed.

(** An exporter that writes beside the checkpoint, under the name with the
    new extension, reports no other entry of the destination directory:
    its output is one only when the process works in that directory, and
    then it is the destination itself. *)
Lemma beside_checkpoint_is_no_other_entry (name src : string) :
  name ∈ model_names →
  resolve cwd src = parent (resolve cwd name) ++ [onnx_filename_of name] →
  parent (resolve cwd src) = resolve cwd target_dir →
  resolve cwd src = resolve cwd (final_path_of target_dir name).
Proof.
  intros Hin Hsrc Hpar. rewrite (resolve_final_path_listed _ Hin).
  rewrite Hsrc in Hpar |- *. unfold parent at 1 in Hpar.
  rewrite removelast_last in Hpar. by rewrite Hpar.
Qed.

(** C10. Take a listed name and an exporter that, as the comment of line
    55 expects, does not report another entry of the destination directory
    as its output: it writes beside the checkpoint
    ([beside_checkpoint_is_no_other_entry]), or anywhere else.  The
    iteration for that name then writes to at most one path in the
    destination directory, the destination path computed for the name: its
    only operation that changes the tree is the rename to that path, and
    every other entry of the destination directory is as the library calls
    left it; so it is as the iteration found it, when the library does not
    write there.  An iteration that skips its name or ends in the error
    line writes nothing at all. *)
Theorem iteration_writes_only_its_destination (name : string) (w : World) :
  name ∈ model_names →
  (∀ src, reported_path name (fs w) = Some src →
          parent (resolve cwd src) = resolve cwd target_dir →
          resolve cwd src = resolve cwd (final_path_of target_dir name)) →
  ∃ w1 evs,
    loop_body name w = (Return tt, w1)
    ∧ trace w1 = trace w ++ evs
    ∧ (mutations evs = []
       ∨ ∃ src, reported_path name (fs w) = Some src
                ∧ mutations evs = [EvRename src (final_path_of target_dir name)])
    ∧ other_destination_entries_unchanged name w
    ∧ ((∀ l, parent l = resolve cwd target_dir →
             library_tree name (fs w) !! l = fs w !! l) →
       ∀ l, parent l = resolve cwd target_dir →
            l ≠ resolve cwd (final_path_of target_dir name) →
            fs w1 !! l = fs w !! l)
    ∧ (EvPrint (MsgSkipping name) ∈ evs ∨ (∃ e, EvPrint (MsgError name e) ∈ evs) →
       fs w1 = library_tree name (fs w)).
Proof.
  intros Hin Hout.
  assert (∀ w1, loop_body name w = (Return tt, w1) →
                (∀ l, parent l = resolve cwd target_dir →
                      l ≠ resolve cwd (final_path_of target_dir name) →
                      fs w1 !! l = library_tree name (fs w) !! l) →
                other_destination_entries_unchanged name w
                ∧ ((∀ l, parent l = resolve cwd target_dir →
                         library_tree name (fs w) !! l = fs w !! l) →
                   ∀ l, parent l = resolve cwd target_dir →
                        l ≠ resolve cwd (final_path_of target_dir name) →
                        fs w1 !! l = fs w !! l)) as Hframe.
  { intros w1 Hbody Hsame. split.
    - intros l Hpar Hne. rewrite Hbody. by apply Hsame.
    - intros Hlib l Hpar Hne. rewrite (Hsame l Hpar Hne). by apply Hlib. }
  destruct (loop_body_tree name w)
    as (w1 & evs & Hbody & Htr
        & [[Hsame Hmut] | (src & Hsrc & Hmut & Hmv & Hskip & Herr)]).
  - exists w1, evs. split; [done|]. split; [done|]. split; [done|].
    destruct (Hframe w1 Hbody) as [Hothers Hstart]; [by rewrite Hsame|].
    by repeat split.
  - exists w1, evs. split; [done|]. split; [done|].
    split; [right; by exists src|].
    destruct (Hframe w1 Hbody) as [Hothers Hstart].
    { intros l Hpar Hne.
      eapply fs_rename_siblings;
        [exact Hmv | by apply resolve_final_path_listed | done | done |].
      intros ->. apply Hne. by apply Hout. }
    split; [done|]. split; [done|].
    intros [Hin' | [e Hin']]; [by destruct Hskip | by destruct (Herr e)].
Qed.

(** *** More of what the script does *)

(** X1. The destination directory is [public/models/yolo26] beside the
    directory of the script: up one level from where [__file__] lies, then
    down.  When [__file__] is an absolute path, the working directory of
    the process plays no part in it. *)
Theorem destination_directory_location :
  resolve cwd target_dir
  = parent (resolve cwd (Py.dirname script_file)) ++ ["public"; "models"; "yolo26"]
  ∧ (Py.startswith "/" script_file = true →
     ∀ other : loc, resolve cwd target_dir = resolve other target_dir).
Proof.
  split.
  - unfold target_dir. rewrite target_dir_of_value, <- walk_to_target.
    destruct (bool_decide (Py.dirname script_file = "")) eqn:Hempty.
    + apply bool_decide_eq_true in Hempty. rewrite Hempty. reflexivity.
    + apply bool_decide_eq_false in Hempty. simpl.
      destruct (Py.endswith_char Py.sep (Py.dirname script_file)) eqn:Hend.
      * destruct (endswith_char_split _ _ Hend) as [d Hd]. rewrite Hd.
        rewrite append_assoc. change (String Py.sep "" +:+ "../public/models/yolo26")
          with (String "/" "../public/models/yolo26").
        destruct d as [|a d]; [reflexivity|].
        unfold Py.sep. rewrite !resolve_append by done. reflexivity.
      * rewrite append_assoc. change ("/" +:+ "../public/models/yolo26")
          with (String "/" "../public/models/yolo26").
        by rewrite resolve_append.
  - intros Habs other. apply resolve_absolute.
    apply dirname_absolute in Habs.
    assert (Py.dirname script_file ≠ "") as Hdir.
    { intros Hempty. by rewrite Hempty in Habs. }
    unfold target_dir. rewrite target_dir_of_value.
    destruct (_ || _).
    + by rewrite startswith_sep_append.
    + rewrite append_assoc. by rewrite startswith_sep_append.
Qed.

(** X2. The destination of a listed name is an entry of the destination
    directory itself, called after the name without its extension; it is
    never the checkpoint's own location, and no two listed names have the
    same destination, so within a run no export lands on another's. *)
Theorem listed_destinations_are_distinct_entries (name : string) :
  name ∈ model_names →
  resolve cwd (final_path_of target_dir name)
  = resolve cwd target_dir ++ [strip_extension name +:+ ".onnx"]
  ∧ parent (resolve cwd (final_path_of target_dir name)) = resolve cwd target_dir
  ∧ resolve cwd (final_path_of target_dir name) ≠ resolve cwd name
  ∧ ∀ other,
      other ∈ model_names →
      resolve cwd (final_path_of target_dir other)
      = resolve cwd (final_path_of target_dir name) →
      other = name.
Proof.
  intros Hin.
  destruct (listed_name_facts name Hin) as (Hrel & Hplain & H0 & H1 & H2 & Hne & Hname).
  pose proof (resolve_final_path_listed name Hin) as Hdst.
  split; [by rewrite Hdst, Hname|].
  split; [rewrite Hdst; apply removelast_last|].
  split.
  - rewrite Hdst, (resolve_plain name) by done.
    intros [_ Hlast]%app_inj_tail. by apply Hne.
  - intros other Hother Hsame.
    rewrite Hdst, (resolve_final_path_listed other Hother) in Hsame.
    apply app_inj_tail in Hsame as [_ Hsame].
    by apply onnx_filename_of_listed_inj.
Qed.

(** X3. The export of a listed checkpoint to a destination where nothing
    stands yet: when the exporter has written a regular file, the
    destination directory still exists and the operating system does not
    refuse, the file is moved, not copied.  The destination then holds its
    bytes, the path the exporter reported is empty, nothing else has
    changed, and the success line is the last one printed. *)
Theorem fresh_export_is_moved_into_place
    (name : string) (w : World) (model : Model) (exported_path : string)
    (t1 t2 : FS) (artifact : string) :
  name ∈ model_names →
  fs_exists name (fs w) = true →
  YOLO name (fs w) = (Return model, t1) →
  model_export model export_args t1 = (Return exported_path, t2) →
  exported_path ≠ "" →
  node_at t2 (resolve cwd exported_path) = Some (File artifact) →
  is_dir t2 (resolve cwd target_dir) = true →
  node_at t2 (resolve cwd (final_path_of target_dir name)) = None →
  os_denies (SysRename (resolve cwd exported_path)
                       (resolve cwd (final_path_of target_dir name))) t2 = None →
  ∃ w1,
    loop_body name w = (Return tt, w1)
    ∧ fs w1 !! resolve cwd (final_path_of target_dir name) = Some (File artifact)
    ∧ fs w1 !! resolve cwd exported_path = None
    ∧ (∀ l, l ≠ resolve cwd exported_path →
            l ≠ resolve cwd (final_path_of target_dir name) →
            fs w1 !! l = t2 !! l)
    ∧ last (printed (trace w1))
      = Some (MsgSuccess (onnx_filename_of name) (final_path_of target_dir name)).
Proof.
  intros Hin Hyes Hload Hexp Hpath Hsrc Hdir Hfree Hok.
  assert (resolve cwd exported_path ≠ resolve cwd (final_path_of target_dir name))
    as Hdiff by (intros Hsame; congruence).
  assert (parent (resolve cwd (final_path_of target_dir name)) = resolve cwd target_dir)
    as Hparent.
  { rewrite (resolve_final_path_listed name Hin). apply removelast_last. }
  assert (fs_exists exported_path t2 = true) as Hout.
  { unfold fs_exists. rewrite (bool_decide_eq_false_2 _ Hpath).
    apply bool_decide_eq_true. by rewrite Hsrc. }
  pose proof (fs_rename_creates exported_path (final_path_of target_dir name) artifact t2
                Hpath (final_path_of_nonempty _ _) Hsrc Hfree) as Hmv.
  rewrite Hparent in Hmv. specialize (Hmv Hdir Hok).
  eexists. split; [by eapply loop_body_moved|]. simpl.
  split; [apply lookup_insert_eq|].
  split; [by rewrite lookup_insert_ne, lookup_delete_eq|].
  split; [intros l Hs Hd; by rewrite lookup_insert_ne, lookup_delete_ne|].
  by rewrite printed_app, last_app.
Qed.

(** X4. Each checkpoint gets exactly two lines on the console, the line
    that starts it and one verdict: skipped, exported, warning or error.
    A loop over a list prints twice as many lines as the list has names;
    when [os.makedirs] returns, the whole script prints twenty-two. *)
Theorem one_verdict_per_checkpoint (w : World) :
  (∀ name, ∃ w1 evs verdict,
      loop_body name w = (Return tt, w1)
      ∧ trace w1 = trace w ++ evs
      ∧ printed evs = [MsgProcessing name; verdict]
      ∧ (verdict = MsgSkipping name
         ∨ verdict = MsgSuccess (onnx_filename_of name) (final_path_of target_dir name)
         ∨ (∃ p, verdict = MsgWarning p)
         ∨ ∃ e, verdict = MsgError name e))
  ∧ (∀ names, ∃ w' evs,
      for_each names loop_body w = (Return tt, w')
      ∧ trace w' = trace w ++ evs
      ∧ length (console evs) = 2 * length names)
  ∧ (∀ t', fs_makedirs target_dir (fs w) = (Return tt, t') →
      ∃ w' evs,
        main w = (Return tt, w')
        ∧ trace w' = trace w ++ evs
        ∧ length (console evs) = 22).
Proof.
  assert (∀ name w0, ∃ w1 evs verdict,
            loop_body name w0 = (Return tt, w1)
            ∧ trace w1 = trace w0 ++ evs
            ∧ printed evs = [MsgProcessing name; verdict]
            ∧ (verdict = MsgSkipping name
               ∨ verdict = MsgSuccess (onnx_filename_of name)
                             (final_path_of target_dir name)
               ∨ (∃ p, verdict = MsgWarning p)
               ∨ ∃ e, verdict = MsgError name e)) as Hone.
  { intros name w0.
    destruct (loop_body_paths name w0)
      as (w1 & evs & Hbody & Htr
          & [(_ & _ & ->) | [(e & t1 & _ & _ & _ & ->)
          | [(m & e & t1 & t2 & _ & _ & _ & _ & ->)
          | [(m & p & t1 & t2 & _ & _ & _ & _ & _ & ->)
          | [(m & p & e & t1 & t2 & _ & _ & _ & _ & _ & _ & ->)
          | (m & p & t1 & t2 & _ & _ & _ & _ & _ & ->)]]]]]);
      eexists w1, _, _; (split; [exact Hbody|]); (split; [exact Htr|]);
      (split; [reflexivity|]); eauto 6. }
  assert (∀ names w0, ∃ w' evs,
            for_each names loop_body w0 = (Return tt, w')
            ∧ trace w' = trace w0 ++ evs
            ∧ length (console evs) = 2 * length names) as Hall.
  { induction names as [|name rest IH]; intros w0.
    - exists w0, []. by rewrite app_nil_r.
    - destruct (Hone name w0) as (w1 & evs1 & verdict & Hbody & Htr1 & Hpr & _).
      destruct (IH w1) as (w2 & evs2 & Hrest & Htr2 & Hlen).
      exists w2, (evs1 ++ evs2).
      split; [by rewrite (for_each_cons _ _ _ _ Hbody)|].
      split; [by rewrite Htr2, Htr1, <- app_assoc|].
      rewrite console_app, length_app, Hlen, console_printed, Hpr. simpl. lia. }
  split; [intros name; apply Hone|]. split; [intros names; apply Hall|].
  intros t' Hmk.
  destruct (Hall model_names
              {| fs := t';
                 trace := trace w ++ [EvMakedirs target_dir;
                                      EvPrint (MsgExporting target_dir)] |})
    as (w' & evs & Hrun & Htr & Hlen).
  rewrite <- (export_models_makedirs_returns _ _ Hmk) in Hrun.
  rewrite (main_of_export_models _ _ Hrun).
  eexists _, ([EvMakedirs target_dir; EvPrint (MsgExporting target_dir)]
              ++ evs ++ [EvPrint MsgComplete]).
  split; [reflexivity|]. simpl. rewrite Htr. simpl.
  split; [by rewrite <- !app_assoc|].
  rewrite console_app, length_app, Hlen. simpl. lia.
Qed.


(** In [M], a run that finds the destination directory in place:
    [os.makedirs] changes nothing, every listed name is started, and the
    script returns having printed the line of completion last. *)
Lemma main_with_destination_in_place (w : World) :
  (∀ l, l `prefix_of` resolve cwd target_dir → is_dir (fs w) l = true) →
  fs_makedirs target_dir (fs w) = (Return tt, fs w)
  ∧ ∃ w' evs,
      main w = (Return tt, w')
      ∧ trace w' = trace w ++ EvMakedirs target_dir :: evs
      ∧ started evs = model_names
      ∧ last evs = Some (EvPrint MsgComplete).
Proof.
  intros Hthere.
  pose proof (fs_makedirs_existing target_dir (fs w) (target_dir_of_nonempty _) Hthere)
    as Hmk.
  split; [exact Hmk|].
  destruct (export_models_spec w (fs w) Hmk) as (w' & evs & Hrun & Htr & Hst & _).
  eexists _, (EvPrint (MsgExporting target_dir) :: evs ++ [EvPrint MsgComplete]).
  split; [by apply main_of_export_models|]. simpl.
  split; [by rewrite Htr, <- app_assoc|].
  split.
  - change (started (EvPrint (MsgExporting target_dir) :: evs ++ [EvPrint MsgComplete]))
      with (started (evs ++ [EvPrint MsgComplete])).
    by rewrite started_app, Hst, app_nil_r.
  - by rewrite app_comm_cons, last_snoc.
Qed.

(** X7. The library is called sparingly and in order.  An iteration loads
    its checkpoint at most once and exports at most once, never without
    having loaded it.  Over a list, the checkpoints loaded are names of the
    list in the order of the list, each no more often than it is listed, and
    there are at most two calls for each name. *)
Theorem library_is_called_in_order (w : World) :
  (∀ name, ∃ w1 evs,
      loop_body name w = (Return tt, w1)
      ∧ trace w1 = trace w ++ evs
      ∧ (library_calls evs = []
         ∨ library_calls evs = [EvLoad name]
         ∨ library_calls evs = [EvLoad name; EvExport export_args]))
  ∧ (∀ names, ∃ w' evs,
      for_each names loop_body w = (Return tt, w')
      ∧ trace w' = trace w ++ evs
      ∧ loads evs `sublist_of` names
      ∧ length (library_calls evs) ≤ 2 * length names).
Proof.
  assert (∀ name w0, ∃ w1 evs,
            loop_body name w0 = (Return tt, w1)
            ∧ trace w1 = trace w0 ++ evs
            ∧ (library_calls evs = [] ∧ loads evs = []
               ∨ library_calls evs = [EvLoad name] ∧ loads evs = [name]
               ∨ library_calls evs = [EvLoad name; EvExport export_args]
                 ∧ loads evs = [name])) as Hone.
  { intros name w0.
    destruct (loop_body_paths name w0)
      as (w1 & evs & Hbody & Htr
          & [(_ & _ & ->) | [(e & t1 & _ & _ & _ & ->)
          | [(m & e & t1 & t2 & _ & _ & _ & _ & ->)
          | [(m & p & t1 & t2 & _ & _ & _ & _ & _ & ->)
          | [(m & p & e & t1 & t2 & _ & _ & _ & _ & _ & _ & ->)
          | (m & p & t1 & t2 & _ & _ & _ & _ & _ & ->)]]]]]);
      exists w1; eexists; (split; [exact Hbody|]); (split; [exact Htr|]);
      [left | right; left | right; right | right; right | right; right | right; right];
      by split. }
  split.
  - intros name. destruct (Hone name w) as (w1 & evs & Hbody & Htr & Hcalls).
    exists w1, evs. split; [done|]. split; [done|].
    destruct Hcalls as [[-> _] | [[-> _] | [-> _]]]; auto.
  - intros names. revert w. induction names as [|name rest IH]; intros w0.
    + exists w0, []. rewrite app_nil_r. split; [done|]. split; [done|].
      split; [constructor | simpl; lia].
    + destruct (Hone name w0) as (w1 & evs1 & Hbody & Htr1 & Hcalls).
      destruct (IH w1) as (w2 & evs2 & Hrest & Htr2 & Hsub & Hlen).
      exists w2, (evs1 ++ evs2).
      split; [by rewrite (for_each_cons _ _ _ _ Hbody)|].
      split; [by rewrite Htr2, Htr1, <- app_assoc|].
      rewrite loads_app, library_calls_app, length_app.
      destruct Hcalls as [[-> ->] | [[-> ->] | [-> ->]]]; simpl.
      * split; [by apply sublist_cons | lia].
      * split; [by apply sublist_skip | lia].
      * split; [by apply sublist_skip | lia].
Qed.

(** X8. An exporter that has put its output where the script wants it: the
    reported path and the destination path, however they are written, are
    resolved by the kernel to one and the same existing place.  Unless the
    operating system refuses the call, the rename is then no operation at
    all: the tree stays as the exporter left it and the success line is
    printed. *)
Theorem export_in_place_is_kept
    (name : string) (w : World) (model : Model) (exported_path : string)
    (t1 t2 : FS) (l : loc) :
  fs_exists name (fs w) = true →
  YOLO name (fs w) = (Return model, t1) →
  model_export model export_args t1 = (Return exported_path, t2) →
  kernel_resolve t2 exported_path = Some l →
  kernel_resolve t2 (final_path_of target_dir name) = Some l →
  is_Some (node_at t2 l) →
  os_denies (SysRename l l) t2 = None →
  ∃ w1,
    loop_body name w = (Return tt, w1)
    ∧ fs w1 = t2
    ∧ last (printed (trace w1))
      = Some (MsgSuccess (onnx_filename_of name) (final_path_of target_dir name)).
Proof.
  intros Hyes Hload Hexp Hsrc Hdst Hnode Hok.
  apply kernel_resolve_lexical in Hsrc as [Hpath Hsrc].
  apply kernel_resolve_lexical in Hdst as [_ Hdst].
  assert (fs_exists exported_path t2 = true) as Hout.
  { unfold fs_exists. rewrite (bool_decide_eq_false_2 _ Hpath), Hsrc.
    by apply bool_decide_eq_true. }
  assert (fs_rename exported_path (final_path_of target_dir name) t2 = (Return tt, t2))
    as Hmv.
  { apply fs_rename_same; [apply final_path_of_nonempty | done | congruence |].
    by rewrite Hsrc, Hdst. }
  eexists. split; [by eapply loop_body_moved|]. simpl.
  split; [done|]. by rewrite printed_app, last_app.
Qed.

Lemma for_each_all_missing (names : list string) (w : World) :
  (∀ name, name ∈ names → fs_exists name (fs w) = false) →
  for_each names loop_body w
  = (Return tt, {| fs := fs w; trace := trace w ++ skip_trace names |}).
Proof.
  revert w. induction names as [|name rest IH]; intros w Hnone.
  - simpl. rewrite app_nil_r. by destruct w.
  - rewrite (for_each_cons name rest w _ (loop_body_skip name w (Hnone name ltac:(left)))).
    rewrite IH; [|intros n Hn; apply Hnone; by right]. simpl.
    by rewrite <- app_assoc.
Qed.

(** X9. A run that finds none of the listed checkpoints is harmless: once
    [os.makedirs] has returned, the library is never called, nothing is
    renamed, the tree stays as [os.makedirs] left it, and the console
    shows the heading, a start and a skip line for each name in turn, and
    the line of completion. *)
Theorem nothing_to_export_changes_nothing (w : World) (t' : FS) :
  fs_makedirs target_dir (fs w) = (Return tt, t') →
  (∀ name, name ∈ model_names → fs_exists name t' = false) →
  main w
  = (Return tt,
     {| fs := t';
        trace := trace w
                 ++ [EvMakedirs target_dir; EvPrint (MsgExporting target_dir)]
                 ++ skip_trace model_names ++ [EvPrint MsgComplete] |})
  ∧ library_calls (skip_trace model_names) = []
  ∧ mutations (skip_trace model_names) = [].
Proof.
  intros Hmk Hnone. split; [|by split].
  assert (export_models w
          = (Return tt,
             {| fs := t';
                trace := (trace w ++ [EvMakedirs target_dir;
                                      EvPrint (MsgExporting target_dir)])
                         ++ skip_trace model_names |})) as Hrun.
  { rewrite (export_models_makedirs_returns _ _ Hmk).
    by rewrite for_each_all_missing. }
  rewrite (main_of_export_models _ _ Hrun). cbn [fs trace].
  by rewrite <- !app_assoc.
Qed.

(** *** The script in [P] *)

Lemma refines_bind {A B} (m' : P A) (m : M A) (k' : A → P B) (k : A → M B) :
  refines m' m → (∀ a, refines (k' a) (k a)) → refines (m' ≫= k') (m ≫= k).
Proof.
  intros Hm Hk w. unfold mbind, P_bind, M_bind. rewrite (Hm w). unfold lift.
  destruct (m w) as [[a|e] w1]; simpl; [apply Hk | done].
Qed.

Lemma refines_try {A} (body' : P A) (body : M A)
    (handler' : exception → P A) (handler : exception → M A) :
  refines body' body → (∀ e, refines (handler' e) (handler e)) →
  refines (try_except' body' handler') (try_except body handler).
Proof.
  intros Hb Hh w. unfold try_except', try_except. rewrite (Hb w). unfold lift.
  destruct (body w) as [[a|e] w1]; simpl; [done | apply Hh].
Qed.

Lemma refines_for_each {A} (xs : list A) (body' : A → P unit) (body : A → M unit) :
  (∀ x, refines (body' x) (body x)) → refines (for_each' xs body') (for_each xs body).
Proof.
  intros Hbody. induction xs as [|x xs IH]; [done|].
  simpl. apply refines_bind; [apply Hbody | by intros _].
Qed.

Lemma refines_on_fs {A} (f' : FS → result A * FS) (f : FS → outcome A * FS) :
  (∀ t, f' t = os_call f t) → refines (on_fs' f') (on_fs f).
Proof.
  intros Hf w. unfold on_fs', on_fs, lift. rewrite Hf. unfold os_call.
  by destruct (f (fs w)).
Qed.

(** The script in [P] does what the script in [M] does, when nothing cuts
    an operation short and the library in [P] is the library in [M]: it
    raises instances of [Exception] only. *)
Section Undisturbed.

Hypothesis interrupts_nothing : ∀ ev w, interrupts ev w = None.
Hypothesis YOLO'_fails_only : ∀ name t, YOLO' name t = os_call (YOLO name) t.
Hypothesis model_export'_fails_only :
  ∀ model t, model_export' model export_args t = os_call (model_export model export_args) t.

Lemma attempt_refines (ev : event) : refines (attempt ev) (emit ev).
Proof. intros w. unfold attempt. by rewrite interrupts_nothing. Qed.

Lemma os_path_exists'_refines (p : string) :
  refines (os_path_exists' p) (os_path_exists p).
Proof.
  apply refines_bind; [apply attempt_refines|]. intros _. by apply refines_on_fs.
Qed.

Lemma os_rename'_refines (src dst : string) :
  refines (os_rename' src dst) (os_rename src dst).
Proof.
  apply refines_bind; [apply attempt_refines|]. intros _. by apply refines_on_fs.
Qed.

Lemma try_body'_refines (name : string) : refines (try_body' name) (try_body name).
Proof.
  unfold try_body', try_body.
  apply refines_bind; [apply os_path_exists'_refines|]. intros [|]; simpl.
  - apply refines_bind.
    { apply refines_bind; [apply attempt_refines|]. intros _. by apply refines_on_fs. }
    intros model. apply refines_bind.
    { apply refines_bind; [apply attempt_refines|]. intros _. by apply refines_on_fs. }
    intros exported_path.
    apply refines_bind; [apply os_path_exists'_refines|]. intros [|].
    + apply refines_bind; [apply os_rename'_refines|]. intros _. apply attempt_refines.
    + apply attempt_refines.
  - apply attempt_refines.
Qed.

Lemma loop_body'_refines (name : string) : refines (loop_body' name) (loop_body name).
Proof.
  apply refines_bind; [apply attempt_refines|]. intros _.
  apply refines_try; [apply try_body'_refines|]. intros e. apply attempt_refines.
Qed.

Lemma export_models'_refines : refines export_models' export_models.
Proof.
  apply refines_bind.
  { apply refines_bind; [apply attempt_refines|]. intros _. by apply refines_on_fs. }
  intros _. apply refines_bind; [apply attempt_refines|]. intros _.
  apply refines_for_each, loop_body'_refines.
Qed.

Lemma main'_refines : refines main' main.
Proof.
  apply refines_bind; [apply export_models'_refines|]. intros _. apply attempt_refines.
Qed.

End Undisturbed.

(** What the script in [P] can raise. *)

Lemma within_bind {A B} (Q : raised → Prop) (m : P A) (k : A → P B) :
  raises_within Q m → (∀ a, raises_within Q (k a)) → raises_within Q (m ≫= k).
Proof.
  intros Hm Hk w r w' Hrun. unfold mbind, P_bind in Hrun.
  destruct (m w) as [[a|r1] w1] eqn:Hmw.
  - by eapply Hk.
  - simplify_eq. by eapply Hm.
Qed.

Lemma within_try {A} (Q : raised → Prop) (body : P A) (handler : exception → P A) :
  raises_within (λ r, Q r ∨ ∃ e, r = Failure e) body →
  (∀ e, raises_within Q (handler e)) →
  raises_within Q (try_except' body handler).
Proof.
  intros Hb Hh w r w' Hrun. unfold try_except' in Hrun.
  destruct (body w) as [[a|[e|e]] w1] eqn:Hbw.
  - done.
  - by eapply Hh.
  - simplify_eq. destruct (Hb _ _ _ Hbw) as [?|[e' ?]]; done.
Qed.

Lemma within_for_each {A} (Q : raised → Prop) (xs : list A) (body : A → P unit) :
  (∀ x, raises_within Q (body x)) → raises_within Q (for_each' xs body).
Proof.
  intros Hbody. induction xs as [|x xs IH]; [by intros w r w' Hrun|].
  simpl. apply within_bind; [apply Hbody | by intros _].
Qed.

Lemma within_weaken {A} (Q Q' : raised → Prop) (m : P A) :
  (∀ r, Q r → Q' r) → raises_within Q m → raises_within Q' m.
Proof. intros HQ Hm w r w' Hrun. eapply HQ, Hm, Hrun. Qed.

Lemma attempt_within (ev : event) : raises_within fatal_cause (attempt ev).
Proof.
  intros w r w' Hrun. unfold attempt in Hrun.
  destruct (interrupts ev w) as [r0|] eqn:Hint; simplify_eq.
  left. by exists ev, w'.
Qed.

Lemma os_call_within {A} (f : FS → outcome A * FS) :
  raises_within (λ r, ∃ e, r = Failure e) (on_fs' (os_call f)).
Proof.
  intros w r w' Hrun. unfold on_fs', os_call in Hrun.
  destruct (f (fs w)) as [[a|e] t]; simpl in Hrun; simplify_eq. by exists e.
Qed.

Lemma attempt_within_try (ev : event) : raises_within fatal_or_failure (attempt ev).
Proof. eapply within_weaken; [|apply attempt_within]. by left. Qed.

Lemma os_within_try {A} (ev : event) (f : FS → outcome A * FS) :
  raises_within fatal_or_failure (attempt ev;; on_fs' (os_call f)).
Proof.
  apply within_bind; [apply attempt_within_try|]. intros _.
  eapply within_weaken; [|apply os_call_within]. by right.
Qed.

Lemma load'_within (name : string) : raises_within fatal_or_failure (load' name).
Proof.
  apply within_bind; [apply attempt_within_try|]. intros _ w r w' Hrun.
  unfold on_fs' in Hrun. destruct (YOLO' name (fs w)) as [[m|[e|e]] t] eqn:Hload;
    simplify_eq.
  - right. by exists e.
  - left. right. left. by exists e, name, (fs w), t.
Qed.

Lemma export'_within (model : Model) :
  raises_within fatal_or_failure (export' model export_args).
Proof.
  apply within_bind; [apply attempt_within_try|]. intros _ w r w' Hrun.
  unfold on_fs' in Hrun.
  destruct (model_export' model export_args (fs w)) as [[p|[e|e]] t] eqn:Hexp;
    simplify_eq.
  - right. by exists e.
  - left. right. right. by exists e, model, (fs w), t.
Qed.

Lemma try_body'_within (name : string) : raises_within fatal_or_failure (try_body' name).
Proof.
  unfold try_body'.
  apply within_bind; [apply os_within_try|]. intros [|]; simpl.
  - apply within_bind; [apply load'_within|]. intros model.
    apply within_bind; [apply export'_within|]. intros exported_path.
    apply within_bind; [apply os_within_try|]. intros [|].
    + apply within_bind; [apply os_within_try|]. intros _. apply attempt_within_try.
    + apply attempt_within_try.
  - apply attempt_within_try.
Qed.

Lemma loop_body'_within (name : string) : raises_within fatal_cause (loop_body' name).
Proof.
  apply within_bind; [apply attempt_within|]. intros _.
  apply within_try; [apply try_body'_within|]. intros e. apply attempt_within.
Qed.

Lemma os_makedirs'_carried_out (p : string) (w : World) :
  interrupts (EvMakedirs p) w = None →
  os_makedirs' p w
  = (of_outcome (fs_makedirs p (fs w)).1,
     {| fs := (fs_makedirs p (fs w)).2; trace := trace w ++ [EvMakedirs p] |}).
Proof.
  intros Hquiet. unfold os_makedirs', attempt, on_fs', os_call, mbind, P_bind.
  rewrite Hquiet. simpl. by destruct (fs_makedirs p (fs w)).
Qed.

Lemma os_makedirs'_cut_short (p : string) (w : World) (r : raised) :
  interrupts (EvMakedirs p) w = Some r → os_makedirs' p w = (Raised r, w).
Proof.
  intros Hint. unfold os_makedirs', attempt, mbind, P_bind. by rewrite Hint.
Qed.

(** When [os.makedirs] raises, the script raises the same at once. *)
Lemma main'_makedirs_raises (w w' : World) (r : raised) :
  os_makedirs' target_dir w = (Raised r, w') →
  main' w = (Raised r, w')
  ∧ (trace w' = trace w ∨ trace w' = trace w ++ [EvMakedirs target_dir]).
Proof.
  intros Hmk. split.
  - unfold main', export_models', mbind, P_bind. by rewrite Hmk.
  - unfold os_makedirs', attempt, on_fs', os_call, mbind, P_bind in Hmk.
    destruct (interrupts (EvMakedirs target_dir) w); simplify_eq; [by left|].
    simpl in Hmk. destruct (fs_makedirs target_dir (fs w)) as [[[]|e] t]; simplify_eq.
    by right.
Qed.

(** When it returns, what the script raises has a fatal cause. *)
Lemma main'_raises (w w' : World) (r : raised) :
  main' w = (Raised r, w') →
  (∃ w0, os_makedirs' target_dir w = (Raised r, w0)) ∨ fatal_cause r.
Proof.
  intros Hrun. unfold main', export_models' in Hrun.
  unfold mbind at 1 2, P_bind in Hrun.
  destruct (os_makedirs' target_dir w) as [[[]|r0] w0] eqn:Hmk.
  2: { simplify_eq. left. by exists w'. }
  right.
  assert (raises_within fatal_cause
            (print' (MsgExporting target_dir);; for_each' model_names loop_body'))
    as Hrest.
  { apply within_bind; [apply attempt_within|]. intros _.
    apply within_for_each, loop_body'_within. }
  destruct ((print' (MsgExporting target_dir);; for_each' model_names loop_body') w0)
    as [[[]|r1] w1] eqn:Hloop.
  - by eapply attempt_within.
  - simplify_eq. by eapply Hrest.
Qed.

Lemma main'_returns_last (w w' : World) :
  main' w = (Done tt, w') → last (trace w') = Some (EvPrint MsgComplete).
Proof.
  intros Hrun. unfold main', mbind, P_bind in Hrun.
  destruct (export_models' w) as [[[]|r0] w0]; [|done].
  unfold print', attempt in Hrun. destruct (interrupts _ _); simplify_eq.
  simpl. apply last_snoc.
Qed.

Lemma undisturbed_no_fatal_cause (r : raised) : undisturbed → ¬ fatal_cause r.
Proof.
  intros (Hquiet & Hload & Hexp) [(ev & w0 & Hint) | [(e & name & t & t' & -> & Hl)
                                                     | (e & model & t & t' & -> & Hx)]].
  - by rewrite Hquiet in Hint.
  - by eapply Hload.
  - by eapply Hexp.
Qed.

End Script.

(** ** The export configuration *)

Section Exporters.

Variable cwd : loc.
Variable script_file : string.
Variable os_denies : syscall → FS → option exception.
Variable Model : Type.
Variable YOLO : string → FS → outcome Model * FS.
Variable model_export : Model → ExportArgs → FS → outcome string * FS.

Local Abbreviation target_dir := (target_dir script_file).
Local Abbreviation fs_exists := (fs_exists cwd).
Local Abbreviation fs_rename := (fs_rename cwd os_denies).
Local Abbreviation loop_body_with lib_export :=
  (loop_body cwd script_file os_denies Model YOLO lib_export).
Local Abbreviation main_with lib_export :=
  (main cwd script_file os_denies Model YOLO lib_export).

(** An iteration whose checkpoint loads hands the model to the exporter
    with [export_args], on the tree the load left; what the exporter then
    returns or raises decides the rest of the iteration. *)
Lemma loop_body_exports (name : string) (w : World) (model : Model) (t1 : FS) :
  fs_exists name (fs w) = true →
  YOLO name (fs w) = (Return model, t1) →
  ∃ w1 rest,
    loop_body_with model_export name w = (Return tt, w1)
    ∧ trace w1 = trace w ++ [EvPrint (MsgProcessing name); EvExists name;
                             EvLoad name; EvExport export_args] ++ rest
    ∧ match model_export model export_args t1 with
      | (Raise e, t2) => fs w1 = t2 ∧ rest = [EvPrint (MsgError name e)]
      | (Return exported_path, t2) =>
          (∃ rest', rest = EvExists exported_path :: rest')
          ∧ fs w1 = (if fs_exists exported_path t2
                     then (fs_rename exported_path (final_path_of target_dir name) t2).2
                     else t2)
      end.
Proof.
  intros Hyes Hload.
  destruct (model_export model export_args t1) as [[exported_path|e] t2] eqn:Hexp.
  2: { eexists _, _. split; [by eapply loop_body_export_raises|]. split; [reflexivity|done]. }
  destruct (fs_exists exported_path t2) eqn:Hout.
  2: { eexists _, _. split; [by eapply loop_body_missing|]. split.
       - reflexivity.
       - split; [by eexists|done]. }
  destruct (fs_rename exported_path (final_path_of target_dir name) t2)
    as [[[]|e] t3] eqn:Hmv.
  - eexists _, _. split; [by eapply loop_body_moved|]. split.
    + reflexivity.
    + split; [by eexists|done].
  - eexists _, _. split; [by eapply loop_body_rename_raises|]. split.
    + reflexivity.
    + split; [by eexists|done].
Qed.

(** The script asks nothing of the exporter but its answer to
    [export_args]. *)
Lemma loop_body_asks_export_args
    (other : Model → ExportArgs → FS → outcome string * FS) (name : string) (w : World) :
  (∀ model t, other model export_args t = model_export model export_args t) →
  loop_body_with other name w = loop_body_with model_export name w.
Proof.
  intros Hsame.
  unfold loop_body, try_body, try_except, os_path_exists, load, export, print, emit,
    on_fs, mbind, M_bind, mret, M_ret; simpl.
  destruct (fs_exists name (fs w)); simpl; [|done].
  destruct (YOLO name (fs w)) as [[model|e] t1]; simpl; [|done].
  by rewrite Hsame.
Qed.

Lemma main_asks_export_args
    (other : Model → ExportArgs → FS → outcome string * FS) (w : World) :
  (∀ model t, other model export_args t = model_export model export_args t) →
  main_with other w = main_with model_export w.
Proof.
  intros Hsame.
  assert (∀ names w0,
            for_each names (loop_body_with other) w0
            = for_each names (loop_body_with model_export) w0) as Hloop.
  { induction names as [|name names IH]; intros w0; [done|].
    simpl. unfold mbind, M_bind. rewrite (loop_body_asks_export_args _ _ _ Hsame).
    destruct (loop_body_with model_export name w0) as [[[]|e] w1]; [apply IH | done]. }
  unfold main, export_models, mbind, M_bind.
  destruct (os_makedirs cwd os_denies target_dir w) as [[[]|e] w0]; [|done].
  destruct (print (MsgExporting target_dir) w0) as [[[]|e] w1]; [|done].
  by rewrite Hloop.
Qed.

(** C6. The export configuration is one and the same for every checkpoint
    of a run: format [onnx], image size 640, simplification on, dynamic
    shapes off, half precision on, operator set 17.  Every export the run
    records carries it.  Every checkpoint that is there and loads is
    handed to the exporter with exactly this configuration, on the tree
    the load left, and what the exporter answers to it decides the rest of
    the iteration: the error line when it raises, the look for the
    reported path and the move when it returns.  And the run asks the
    exporter nothing else: an exporter that answers this configuration
    alike gives the same run, whatever it would do with another. *)
Theorem export_configuration_is_fixed (w : World) :
  (format export_args = "onnx" ∧ imgsz export_args = 640%Z
   ∧ simplify export_args = true ∧ dynamic export_args = false
   ∧ half export_args = true ∧ opset export_args = 17%Z)
  ∧ (∃ evs,
       trace (main_with model_export w).2 = trace w ++ evs
       ∧ Forall (λ ev, ∀ args, ev = EvExport args → args = export_args) evs)
  ∧ (∀ (name : string) (w0 : World) (model : Model) (t1 : FS),
       fs_exists name (fs w0) = true →
       YOLO name (fs w0) = (Return model, t1) →
       ∃ w1 rest,
         loop_body_with model_export name w0 = (Return tt, w1)
         ∧ trace w1 = trace w0 ++ [EvPrint (MsgProcessing name); EvExists name;
                                   EvLoad name; EvExport export_args] ++ rest
         ∧ match model_export model export_args t1 with
           | (Raise e, t2) => fs w1 = t2 ∧ rest = [EvPrint (MsgError name e)]
           | (Return exported_path, t2) =>
               (∃ rest', rest = EvExists exported_path :: rest')
               ∧ fs w1 = (if fs_exists exported_path t2
                          then (fs_rename exported_path
                                  (final_path_of target_dir name) t2).2
                          else t2)
           end)
  ∧ (∀ other : Model → ExportArgs → FS → outcome string * FS,
       (∀ model t, other model export_args t = model_export model export_args t) →
       main_with other w = main_with model_export w).
Proof.
  split; [by repeat split|]. split.
  { destruct (export_events_carry_the_arguments
                cwd script_file os_denies Model YOLO model_export w)
      as (evs & Htr & Hevs).
    exists evs. split; [exact Htr|].
    eapply Forall_impl; [exact Hevs|]. intros ev Hev args Heq.
    by destruct (Hev args Heq). }
  split; [apply loop_body_exports|].
  intros other Hsame. by apply main_asks_export_args.
Qed.

End Exporters.

(** ** The script in a process that can be disturbed *)

Section Process.

Variable cwd : loc.
Variable script_file : string.
Variable os_denies : syscall → FS → option exception.
Variable Model : Type.
Variable YOLO' : string → FS → result Model * FS.
Variable model_export' : Model → ExportArgs → FS → result string * FS.
Variable interrupts : event → World → option raised.

Local Abbreviation target_dir := (target_dir script_file).
Local Abbreviation fs_makedirs := (fs_makedirs cwd os_denies).
Local Abbreviation os_makedirs' := (os_makedirs' cwd os_denies interrupts).
Local Abbreviation main' :=
  (main' cwd script_file os_denies Model YOLO' model_export' interrupts).
Local Abbreviation fatal_cause := (fatal_cause Model YOLO' model_export' interrupts).
Local Abbreviation undisturbed := (undisturbed Model YOLO' model_export' interrupts).
Local Abbreviation spec_only_makedirs_is_fatal :=
  (spec_only_makedirs_is_fatal cwd script_file os_denies Model YOLO' model_export'
     interrupts).

Lemma os_call_as_failure {A} (x : result A * FS) :
  (∀ e t', x ≠ (Raised (Interrupt e), t')) →
  x = (let '(o, t') := as_failure x in (of_outcome o, t')).
Proof. intros Hx. destruct x as [[a|[e|e]] t]; [done | done | by destruct (Hx e t)]. Qed.

(** Left alone, the script in [P] is the script in [M] with the same
    library. *)
Lemma main'_undisturbed (w : World) :
  undisturbed →
  main' w
  = lift (main cwd script_file os_denies Model
            (λ name t, as_failure (YOLO' name t))
            (λ model args t, as_failure (model_export' model args t)) w).
Proof.
  intros (Hquiet & Hload & Hexp). apply main'_refines; [done | |].
  - intros name t. unfold os_call. apply os_call_as_failure. intros e t'. apply Hload.
  - intros model t. unfold os_call. apply os_call_as_failure. intros e t'. apply Hexp.
Qed.


(** X6. A run that finds the destination directory in place: [os.makedirs]
    changes nothing, and the run ends with an exception only when the
    environment raises in place of one of its operations (a [print] that
    fails, an interrupt) or the library raises what is no instance of
    [Exception].  In a process that is left alone, with a library that
    raises instances of [Exception] only, such a run cannot fail, whatever
    else the library and the operating system do: every listed name is
    started and the script returns, the line of completion printed
    last. *)
Theorem destination_in_place_run_completes (w : World) :
  (∀ l, l `prefix_of` resolve cwd target_dir → is_dir (fs w) l = true) →
  fs_makedirs target_dir (fs w) = (Return tt, fs w)
  ∧ (∀ r w', main' w = (Raised r, w') → fatal_cause r)
  ∧ (undisturbed →
     ∃ w' evs,
       main' w = (Done tt, w')
       ∧ trace w' = trace w ++ EvMakedirs target_dir :: evs
       ∧ started evs = model_names
       ∧ last evs = Some (EvPrint MsgComplete)).
Proof.
  intros Hthere.
  pose proof (fs_makedirs_existing cwd os_denies target_dir (fs w)
                (target_dir_of_nonempty _) Hthere) as Hmk.
  split; [exact Hmk|]. split.
  - intros r w' Hrun.
    destruct (main'_raises _ _ _ _ _ _ _ _ _ _ Hrun) as [[w0 Hraise]|Hcause]; [|done].
    destruct (interrupts (EvMakedirs target_dir) w) as [r0|] eqn:Hint.
    + erewrite os_makedirs'_cut_short in Hraise by done. simplify_eq.
      left. by exists (EvMakedirs target_dir), w0.
    + rewrite os_makedirs'_carried_out, Hmk in Hraise by done. done.
  - intros Hleft. rewrite (main'_undisturbed w Hleft).
    destruct (main_with_destination_in_place cwd script_file os_denies Model
                (λ name t, as_failure (YOLO' name t))
                (λ model args t, as_failure (model_export' model args t)) w Hthere)
      as (_ & w' & evs & Hrun & Htr & Hst & Hlast).
    exists w', evs. by rewrite Hrun.
Qed.

End Process.

(** ** The script on the sample processes *)

(** [str.replace], [os.path.join], [os.path.dirname] and the spec's
    basename on a few inputs. *)
Example replace_ex1 : Py.replace ".pt" ".onnx" "yolo26n-pose.pt" = "yolo26n-pose.onnx".
Proof. reflexivity. Qed.
Example replace_ex2 : Py.replace ".pt" ".onnx" "a.pt.ptx" = "a.onnx.onnxx".
Proof. reflexivity. Qed.
Example replace_ex3 : Py.replace "aa" "b" "aaaaa" = "bba".
Proof. reflexivity. Qed.
Example join_ex1 : Py.join "scripts" [".."; "public"; "models"; "yolo26"] = "scripts/../public/models/yolo26".
Proof. reflexivity. Qed.
Example join_ex2 : Py.join "" [".."; "public"] = "../public".
Proof. reflexivity. Qed.
Example join_ex3 : Py.join "a/" ["/b"; "c"] = "/b/c".
Proof. reflexivity. Qed.
Example dirname_ex1 : Py.dirname "/app/scripts/export_yolo_onnx.py" = "/app/scripts".
Proof. reflexivity. Qed.
Example dirname_ex2 : Py.dirname "export_yolo_onnx.py" = "".
Proof. reflexivity. Qed.
Example dirname_ex3 : Py.dirname "//x" = "//".
Proof. reflexivity. Qed.
Example dirname_ex4 : Py.dirname "/a//x" = "/a".
Proof. reflexivity. Qed.
Example split_ex : Py.split_sep "" "/a//b/" = [""; "a"; ""; "b"; ""].
Proof. reflexivity. Qed.
Example strip_ex : strip_extension "a.b.pt" = "a.b".
Proof. reflexivity. Qed.

Example replace_ex4 : Py.replace "" "-" "abc" = "-a-b-c-".
Proof. reflexivity. Qed.

(** Outside the list of the script, [str.replace] and the spec's wording
    part ways: an inner [.pt] is replaced too, and another extension is
    kept. *)
Example replace_inner_occurrence :
  onnx_filename_of "v1.pt.best.pt" = "v1.onnx.best.onnx"
  ∧ strip_extension "v1.pt.best.pt" +:+ ".onnx" = "v1.pt.best.onnx".
Proof. by split. Qed.

Local Abbreviation run_loop_body os lib_export :=
  (loop_body Sample.cwd Sample.script_file os string Sample.YOLO lib_export).
Local Abbreviation run_main os lib_export :=
  (main Sample.cwd Sample.script_file os string Sample.YOLO lib_export).
Local Abbreviation destination :=
  ["app"; "public"; "models"; "yolo26"; "yolo26n-pose.onnx"].
Local Abbreviation run_main' os lib_load lib_export env :=
  (main' Sample.cwd Sample.script_file os string lib_load lib_export env).

(** A whole run: one checkpoint exported, one failing to load, eight
    missing. *)
Example sample_run_console :
  console (trace (run_main Sample.permissive Sample.export_beside
                    (Sample.start Sample.tree)).2)
  = [ "Exporting models to /app/scripts/../public/models/yolo26...";
      nl +:+ "Processing yolo26n-pose.pt...";
      "Successfully exported yolo26n-pose.onnx to /app/scripts/../public/models/yolo26/yolo26n-pose.onnx";
      nl +:+ "Processing yolo26s-pose.pt...";
      "Skipping yolo26s-pose.pt: file not found.";
      nl +:+ "Processing yolo26m-pose.pt...";
      "Skipping yolo26m-pose.pt: file not found.";
      nl +:+ "Processing yolo26l-pose.pt...";
      "Skipping yolo26l-pose.pt: file not found.";
      nl +:+ "Processing yolo26x-pose.pt...";
      "Skipping yolo26x-pose.pt: file not found.";
      nl +:+ "Processing yolo26n-seg.pt...";
      "Skipping yolo26n-seg.pt: file not found.";
      nl +:+ "Processing yolo26s-seg.pt...";
      "Error exporting yolo26s-seg.pt: invalid checkpoint";
      nl +:+ "Processing yolo26m-seg.pt...";
      "Skipping yolo26m-seg.pt: file not found.";
      nl +:+ "Processing yolo26l-seg.pt...";
      "Skipping yolo26l-seg.pt: file not found.";
      nl +:+ "Processing yolo26x-seg.pt...";
      "Skipping yolo26x-seg.pt: file not found.";
      nl +:+ "Export process complete." ].
Proof. vm_compute. reflexivity. Qed.

Example sample_run_tree :
  let t := fs (run_main Sample.permissive Sample.export_beside
                 (Sample.start Sample.tree)).2 in
  t !! destination = Some (File "onnx of yolo26n-pose.pt")
  ∧ t !! ["work"; "yolo26n-pose.onnx"] = None
  ∧ t !! ["work"; "yolo26n-pose.pt"] = Some (File "weights").
Proof. vm_compute. by repeat split. Qed.

(** The export is called, with the fixed arguments. *)
Example sample_run_exports :
  EvExport export_args
  ∈ trace (run_main Sample.permissive Sample.export_beside (Sample.start Sample.tree)).2.
Proof. vm_compute. do 5 right. left. Qed.

(** [os.makedirs] raises on a file in the way and on a refusal, and the
    run ends there. *)
Example sample_run_blocked :
  let r := run_main Sample.permissive Sample.export_beside
             (Sample.start Sample.tree_blocked) in
  r.1 = Raise NotADirectoryError
  ∧ trace r.2 = [EvMakedirs "/app/scripts/../public/models/yolo26"].
Proof. vm_compute. by split. Qed.

Example sample_run_read_only :
  (run_main Sample.read_only Sample.export_beside (Sample.start Sample.tree)).1
  = Raise (Exc "PermissionError" "[Errno 13] Permission denied").
Proof. vm_compute. reflexivity. Qed.

(** The scenario of the spec's section 8, run through the loop of the
    script. *)
Example scenario_run :
  let r := for_each ["a.pt"; "b.pt"; "c.pt"]
             (run_loop_body Sample.permissive Sample.export_scenario)
             (Sample.start Sample.tree_scenario) in
  r.1 = Return tt
  ∧ console (trace r.2)
    = [ nl +:+ "Processing a.pt...";
        "Successfully exported a.onnx to /app/scripts/../public/models/yolo26/a.onnx";
        nl +:+ "Processing b.pt...";
        "Skipping b.pt: file not found.";
        nl +:+ "Processing c.pt...";
        "Error exporting c.pt: unsupported operator" ]
  ∧ fs r.2 !! ["app"; "public"; "models"; "yolo26"; "a.onnx"]
    = Some (File "onnx of a.pt")
  ∧ fs r.2 !! ["app"; "public"; "models"; "yolo26"; "c.onnx"] = None.
Proof. vm_compute. by repeat split. Qed.

(** An exporter that, unlike ultralytics, works inside the destination
    directory and reports its working file: an entry of the directory
    before the iteration and after the export, the file is gone after the
    iteration. *)
Example moved_entry_run :
  let l := ["app"; "public"; "models"; "yolo26"; "export.onnx"] in
  let w := Sample.start Sample.tree_interrupted in
  let w1 := (run_loop_body Sample.permissive Sample.export_into_destination
               "yolo26n-pose.pt" w).2 in
  fs w !! l = Some (File "interrupted export")
  ∧ library_tree Sample.cwd string Sample.YOLO Sample.export_into_destination
      "yolo26n-pose.pt" (fs w) !! l = Some (File "onnx of yolo26n-pose.pt")
  ∧ fs w1 !! l = None
  ∧ fs w1 !! destination = Some (File "onnx of yolo26n-pose.pt")
  ∧ last (console (trace w1))
    = Some "Successfully exported yolo26n-pose.onnx to /app/scripts/../public/models/yolo26/yolo26n-pose.onnx".
Proof. vm_compute. by repeat split. Qed.

(** A result is the pair of what it returns and the tree it leaves. *)
Lemma result_eq {A : Type} (x : outcome A * FS) (r : outcome A) :
  x.1 = r → x = (r, x.2).
Proof. intros <-. by destruct x. Qed.

Lemma run_eq {A B : Type} (x : A * B) (r : A) : x.1 = r → x = (r, x.2).
Proof. intros <-. by destruct x. Qed.

(** C1 on the corrupt checkpoint of the sample tree. *)
Lemma library_failure_is_contained_witness :
  ∃ w1,
    run_loop_body Sample.permissive Sample.export_beside
      "yolo26s-seg.pt" (Sample.start Sample.tree) = (Return tt, w1)
    ∧ fs w1 !! ["work"; "yolo26s-seg.onnx"] = None
    ∧ last (console (trace w1))
      = Some "Error exporting yolo26s-seg.pt: invalid checkpoint".
Proof.
  pose (r := Sample.YOLO "yolo26s-seg.pt" Sample.tree).
  destruct (library_failure_is_contained
              Sample.cwd Sample.script_file Sample.permissive string
              Sample.YOLO Sample.export_beside
              "yolo26s-seg.pt" ["yolo26m-seg.pt"] (Sample.start Sample.tree)
              (Exc "RuntimeError" "invalid checkpoint") r.2)
    as (w1 & evs & Hbody & Hfs & _ & Hcon & _).
  - vm_compute. reflexivity.
  - left. apply (result_eq r). vm_compute. reflexivity.
  - exists w1. split; [exact Hbody|]. split.
    + rewrite Hfs. vm_compute. reflexivity.
    + rewrite Hcon, app_assoc, last_snoc. reflexivity.
Defined.

(** C2 on a checkpoint the sample tree does not have. *)
Lemma missing_checkpoint_is_skipped_witness :
  ∃ w1,
    run_loop_body Sample.permissive Sample.export_beside
      "yolo26m-pose.pt" (Sample.start Sample.tree) = (Return tt, w1)
    ∧ fs w1 = Sample.tree
    ∧ trace w1 = [EvPrint (MsgProcessing "yolo26m-pose.pt");
                  EvExists "yolo26m-pose.pt";
                  EvPrint (MsgSkipping "yolo26m-pose.pt")].
Proof.
  destruct (missing_checkpoint_is_skipped
              Sample.cwd Sample.script_file Sample.permissive string
              Sample.YOLO Sample.export_beside
              "yolo26m-pose.pt" ["yolo26l-pose.pt"] (Sample.start Sample.tree))
    as (w1 & evs & Hbody & Hfs & Htr & Hevs & _).
  - vm_compute. reflexivity.
  - exists w1. split; [exact Hbody|]. split; [exact Hfs|].
    rewrite Htr, Hevs. reflexivity.
Defined.

(** C3 on the first name of the list. *)
Lemma destination_path_of_listed_name_witness :
  final_path_of (target_dir Sample.script_file) "yolo26n-pose.pt"
  = "/app/scripts/../public/models/yolo26/yolo26n-pose.onnx".
Proof.
  destruct (destination_path_of_listed_name
              Sample.cwd Sample.script_file Sample.permissive string
              Sample.YOLO Sample.export_beside "yolo26n-pose.pt")
    as (_ & Hpath & _).
  - apply list_elem_of_here.
  - rewrite Hpath. vm_compute. reflexivity.
Defined.

(** C4 with the exporter that writes nothing. *)
Lemma missing_output_is_warned_witness :
  ∃ w1,
    run_loop_body Sample.permissive Sample.export_nothing
      "yolo26n-pose.pt" (Sample.start Sample.tree) = (Return tt, w1)
    ∧ fs w1 !! destination = None
    ∧ last (console (trace w1))
      = Some "Warning: Expected exported file at yolo26n-pose.onnx but not found.".
Proof.
  pose (r1 := Sample.YOLO "yolo26n-pose.pt" Sample.tree).
  pose (r2 := Sample.export_nothing "yolo26n-pose.pt" export_args r1.2).
  destruct (missing_output_is_warned
              Sample.cwd Sample.script_file Sample.permissive string
              Sample.YOLO Sample.export_nothing
              "yolo26n-pose.pt" [] (Sample.start Sample.tree)
              "yolo26n-pose.pt" "yolo26n-pose.onnx" r1.2 r2.2)
    as (w1 & evs & Hbody & Hfs & Htr & Hevs & _).
  - vm_compute. reflexivity.
  - apply (result_eq r1). vm_compute. reflexivity.
  - apply (result_eq r2). vm_compute. reflexivity.
  - vm_compute. reflexivity.
  - exists w1. split; [exact Hbody|]. split.
    + rewrite Hfs. vm_compute. reflexivity.
    + rewrite Htr, Hevs. reflexivity.
Defined.

(** C5 on the sample tree, where the three directories under [/app] are
    missing. *)
Lemma destination_directory_is_made_first_witness :
  ∃ t' w',
    fs_makedirs Sample.cwd Sample.permissive (target_dir Sample.script_file) Sample.tree
    = (Return tt, t')
    ∧ is_dir Sample.tree ["app"; "public"; "models"; "yolo26"] = false
    ∧ is_dir t' ["app"; "public"; "models"; "yolo26"] = true
    ∧ is_dir t' ["app"; "public"] = true
    ∧ export_models Sample.cwd Sample.script_file Sample.permissive string
        Sample.YOLO Sample.export_beside (Sample.start Sample.tree) = (Return tt, w')
    ∧ head (trace w') = Some (EvMakedirs "/app/scripts/../public/models/yolo26").
Proof.
  pose (r := fs_makedirs Sample.cwd Sample.permissive
               (target_dir Sample.script_file) Sample.tree).
  assert (r = (Return tt, r.2)) as Hmk.
  { apply result_eq. vm_compute. reflexivity. }
  destruct (destination_directory_is_made_first
              Sample.cwd Sample.script_file Sample.permissive string
              Sample.YOLO Sample.export_beside (Sample.start Sample.tree) r.2 Hmk)
    as (Hdirs & _ & _ & _ & w' & evs & Hrun & Htr & _).
  exists r.2, w'. split; [exact Hmk|]. split; [vm_compute; reflexivity|].
  split; [apply Hdirs; exists []; vm_compute; reflexivity|].
  split; [apply Hdirs; exists ["models"; "yolo26"]; vm_compute; reflexivity|].
  split; [exact Hrun|]. rewrite Htr. reflexivity.
Defined.

(** C6 with an exporter that produces what it is told: the file that
    arrives at the destination was written for the format [onnx] at half
    precision. *)
Lemma export_configuration_is_fixed_witness :
  ∃ w1,
    run_loop_body Sample.permissive Sample.export_as_told
      "yolo26n-pose.pt" (Sample.start Sample.tree_ready) = (Return tt, w1)
    ∧ EvExport export_args ∈ trace w1
    ∧ fs w1 !! destination = Some (File "onnx fp16 of yolo26n-pose.pt").
Proof.
  pose (r1 := Sample.YOLO "yolo26n-pose.pt" Sample.tree_ready).
  destruct (export_configuration_is_fixed
              Sample.cwd Sample.script_file Sample.permissive string
              Sample.YOLO Sample.export_as_told (Sample.start Sample.tree_ready))
    as (_ & _ & Hexports & _).
  destruct (Hexports "yolo26n-pose.pt" (Sample.start Sample.tree_ready)
              "yolo26n-pose.pt" r1.2)
    as (w1 & rest & Hbody & Htr & Hanswer).
  - vm_compute. reflexivity.
  - apply (result_eq r1). vm_compute. reflexivity.
  - exists w1. split; [exact Hbody|]. split.
    + rewrite Htr. cbn [Sample.start trace app]. do 3 right. left.
    + unfold Sample.export_as_told in Hanswer. cbv beta iota zeta in Hanswer.
      destruct Hanswer as [_ Hfs]. rewrite Hfs. vm_compute. reflexivity.
Defined.

(** C7 on the tree an earlier run left: the old artifact is replaced. *)
Lemma move_replaces_existing_destination_witness :
  Sample.tree_after_run !! destination = Some (File "old artifact")
  ∧ ∃ w1,
      run_loop_body Sample.permissive Sample.export_beside
        "yolo26n-pose.pt" (Sample.start Sample.tree_after_run) = (Return tt, w1)
      ∧ fs w1 !! destination = Some (File "onnx of yolo26n-pose.pt").
Proof.
  split; [vm_compute; reflexivity|].
  pose (r1 := Sample.YOLO "yolo26n-pose.pt" Sample.tree_after_run).
  pose (r2 := Sample.export_beside "yolo26n-pose.pt" export_args r1.2).
  destruct (move_replaces_existing_destination
              Sample.cwd Sample.script_file Sample.permissive string
              Sample.YOLO Sample.export_beside
              "yolo26n-pose.pt" (Sample.start Sample.tree_after_run)
              "yolo26n-pose.pt" "yolo26n-pose.onnx" r1.2 r2.2
              "onnx of yolo26n-pose.pt" "old artifact")
    as (w1 & Hbody & Hnew & _).
  - vm_compute. reflexivity.
  - apply (result_eq r1). vm_compute. reflexivity.
  - apply (result_eq r2). vm_compute. reflexivity.
  - discriminate.
  - vm_compute. reflexivity.
  - vm_compute. reflexivity.
  - reflexivity.
  - exists w1. split; [exact Hbody|]. exact Hnew.
Defined.



(** C9 with the working directory on another device than the
    application. *)
Lemma rename_failure_is_contained_witness :
  ∃ w1,
    run_loop_body Sample.cross_device Sample.export_beside
      "yolo26n-pose.pt" (Sample.start Sample.tree_after_run) = (Return tt, w1)
    ∧ fs w1 !! destination = Some (File "old artifact")
    ∧ last (console (trace w1))
      = Some "Error exporting yolo26n-pose.pt: [Errno 18] Invalid cross-device link".
Proof.
  pose (r1 := Sample.YOLO "yolo26n-pose.pt" Sample.tree_after_run).
  pose (r2 := Sample.export_beside "yolo26n-pose.pt" export_args r1.2).
  pose (r3 := fs_rename Sample.cwd Sample.cross_device "yolo26n-pose.onnx"
                (final_path_of (target_dir Sample.script_file) "yolo26n-pose.pt") r2.2).
  destruct (rename_failure_is_contained
              Sample.cwd Sample.script_file Sample.cross_device string
              Sample.YOLO Sample.export_beside
              "yolo26n-pose.pt" ["yolo26s-pose.pt"] (Sample.start Sample.tree_after_run)
              "yolo26n-pose.pt" "yolo26n-pose.onnx"
              (Exc "OSError" "[Errno 18] Invalid cross-device link")
              r1.2 r2.2 r3.2)
    as (w1 & Hbody & Hfs & _ & Hcon & _).
  - vm_compute. reflexivity.
  - apply (result_eq r1). vm_compute. reflexivity.
  - apply (result_eq r2). vm_compute. reflexivity.
  - vm_compute. reflexivity.
  - apply (result_eq r3). vm_compute. reflexivity.
  - exists w1. split; [exact Hbody|]. split; [|exact Hcon].
    rewrite Hfs. vm_compute. reflexivity.
Defined.

(** C10 on the tree an interrupted run left, with the exporter that writes
    next to the checkpoint: the move replaces the old artifact and the
    other entry of the destination directory stays. *)
Lemma iteration_writes_only_its_destination_witness :
  fs (run_loop_body Sample.permissive Sample.export_beside
        "yolo26n-pose.pt" (Sample.start Sample.tree_interrupted)).2
    !! ["app"; "public"; "models"; "yolo26"; "export.onnx"]
  = Some (File "interrupted export")
  ∧ fs (run_loop_body Sample.permissive Sample.export_beside
          "yolo26n-pose.pt" (Sample.start Sample.tree_interrupted)).2
      !! destination
    = Some (File "onnx of yolo26n-pose.pt").
Proof.
  destruct (iteration_writes_only_its_destination
              Sample.cwd Sample.script_file Sample.permissive string
              Sample.YOLO Sample.export_beside
              "yolo26n-pose.pt" (Sample.start Sample.tree_interrupted))
    as (w1 & evs & Hbody & _ & _ & Hothers & _).
  - unfold model_names. left.
  - intros src Hsrc Hpar. vm_compute in Hsrc. injection Hsrc as <-.
    vm_compute in Hpar. discriminate.
  - split.
    + etransitivity; [apply Hothers|].
      * vm_compute. reflexivity.
      * vm_compute. discriminate.
      * vm_compute. reflexivity.
    + vm_compute. reflexivity.
Defined.

(** X10 on the same tree and exporter. *)
Lemma iteration_changes_only_by_its_move_witness :
  fs (run_loop_body Sample.permissive Sample.export_beside
        "yolo26n-pose.pt" (Sample.start Sample.tree_interrupted)).2
    !! ["app"; "public"; "models"; "yolo26"; "export.onnx"]
  = Some (File "interrupted export").
Proof.
  destruct (iteration_changes_only_by_its_move
              Sample.cwd Sample.script_file Sample.permissive string
              Sample.YOLO Sample.export_beside
              "yolo26n-pose.pt" (Sample.start Sample.tree_interrupted))
    as (w1 & evs & Hbody & _ & _ & _ & _ & _ & Hframe).
  rewrite Hbody. simpl. rewrite Hframe.
  - vm_compute. reflexivity.
  - vm_compute. discriminate.
  - intros src Hsrc. vm_compute in Hsrc. injection Hsrc as <-. split.
    + vm_compute. discriminate.
    + eexists. vm_compute. reflexivity.
Defined.

(** The assumption of C10 on the exporter is needed: when the exporter
    reports an entry of the destination directory under another name, the
    move takes that entry away. *)
Example unexpected_exporter_moves_entry :
  ¬ other_destination_entries_unchanged
      Sample.cwd Sample.script_file Sample.permissive string
      Sample.YOLO Sample.export_into_destination
      "yolo26n-pose.pt" (Sample.start Sample.tree_interrupted).
Proof.
  intros Hclaim.
  specialize (Hclaim ["app"; "public"; "models"; "yolo26"; "export.onnx"]).
  assert (Some (File "onnx of yolo26n-pose.pt") = @None node) as Habsurd; [|discriminate].
  symmetry. etransitivity; [etransitivity; [|apply Hclaim]|].
  - vm_compute. reflexivity.
  - vm_compute. reflexivity.
  - vm_compute. discriminate.
  - vm_compute. reflexivity.
Qed.

(** X1 for the sample script, started from two directories. *)
Lemma destination_directory_location_witness :
  resolve ["work"] (target_dir Sample.script_file)
  = ["app"; "public"; "models"; "yolo26"]
  ∧ resolve ["home"; "user"] (target_dir Sample.script_file)
    = resolve ["work"] (target_dir Sample.script_file).
Proof.
  destruct (destination_directory_location ["work"] Sample.script_file)
    as [Hwhere Hfixed].
  split.
  - rewrite Hwhere. vm_compute. reflexivity.
  - symmetry. apply Hfixed. reflexivity.
Defined.

(** X2 on the first name and the last. *)
Lemma listed_destinations_are_distinct_entries_witness :
  resolve Sample.cwd (final_path_of (target_dir Sample.script_file) "yolo26n-pose.pt")
  = ["app"; "public"; "models"; "yolo26"; "yolo26n-pose.onnx"]
  ∧ resolve Sample.cwd (final_path_of (target_dir Sample.script_file) "yolo26x-seg.pt")
    ≠ resolve Sample.cwd
        (final_path_of (target_dir Sample.script_file) "yolo26n-pose.pt").
Proof.
  destruct (listed_destinations_are_distinct_entries
              Sample.cwd Sample.script_file "yolo26n-pose.pt")
    as (Hwhere & _ & _ & Hdistinct).
  - apply list_elem_of_here.
  - split.
    + rewrite Hwhere. vm_compute. reflexivity.
    + intros Hsame. apply Hdistinct in Hsame; [discriminate Hsame|].
      unfold model_names. do 9 apply list_elem_of_further. apply list_elem_of_here.
Defined.

(** X3 on the tree with the destination directory made and empty. *)
Lemma fresh_export_is_moved_into_place_witness :
  ∃ w1,
    run_loop_body Sample.permissive Sample.export_beside
      "yolo26n-pose.pt" (Sample.start Sample.tree_ready) = (Return tt, w1)
    ∧ fs w1 !! destination = Some (File "onnx of yolo26n-pose.pt")
    ∧ fs w1 !! ["work"; "yolo26n-pose.onnx"] = None
    ∧ fs w1 !! ["work"; "yolo26n-pose.pt"] = Some (File "weights").
Proof.
  pose (r1 := Sample.YOLO "yolo26n-pose.pt" Sample.tree_ready).
  pose (r2 := Sample.export_beside "yolo26n-pose.pt" export_args r1.2).
  destruct (fresh_export_is_moved_into_place
              Sample.cwd Sample.script_file Sample.permissive string
              Sample.YOLO Sample.export_beside
              "yolo26n-pose.pt" (Sample.start Sample.tree_ready)
              "yolo26n-pose.pt" "yolo26n-pose.onnx" r1.2 r2.2
              "onnx of yolo26n-pose.pt")
    as (w1 & Hbody & Hnew & Hgone & Hframe & _).
  - apply list_elem_of_here.
  - vm_compute. reflexivity.
  - apply (result_eq r1). vm_compute. reflexivity.
  - apply (result_eq r2). vm_compute. reflexivity.
  - discriminate.
  - vm_compute. reflexivity.
  - vm_compute. reflexivity.
  - vm_compute. reflexivity.
  - reflexivity.
  - exists w1. split; [exact Hbody|]. split; [exact Hnew|]. split; [exact Hgone|].
    rewrite Hframe.
    + vm_compute. reflexivity.
    + vm_compute. discriminate.
    + vm_compute. discriminate.
Defined.

(** X4 and X7 on the scenario of three checkpoints: six lines, two loads
    in the order of the list, three calls. *)
Lemma one_verdict_per_checkpoint_witness :
  ∃ w' evs,
    for_each ["a.pt"; "b.pt"; "c.pt"]
      (run_loop_body Sample.permissive Sample.export_scenario)
      (Sample.start Sample.tree_scenario) = (Return tt, w')
    ∧ trace w' = evs
    ∧ length (console evs) = 6.
Proof.
  destruct (one_verdict_per_checkpoint
              Sample.cwd Sample.script_file Sample.permissive string
              Sample.YOLO Sample.export_scenario (Sample.start Sample.tree_scenario))
    as (_ & Hall & _).
  destruct (Hall ["a.pt"; "b.pt"; "c.pt"]) as (w' & evs & Hrun & Htr & Hlen).
  exists w', evs. split; [exact Hrun|]. split; [exact Htr | exact Hlen].
Defined.

Lemma library_is_called_in_order_witness :
  ∃ w' evs,
    for_each ["a.pt"; "b.pt"; "c.pt"]
      (run_loop_body Sample.permissive Sample.export_scenario)
      (Sample.start Sample.tree_scenario) = (Return tt, w')
    ∧ trace w' = evs
    ∧ loads evs `sublist_of` ["a.pt"; "b.pt"; "c.pt"]
    ∧ length (library_calls evs) ≤ 6.
Proof.
  destruct (library_is_called_in_order
              Sample.cwd Sample.script_file Sample.permissive string
              Sample.YOLO Sample.export_scenario (Sample.start Sample.tree_scenario))
    as (_ & Hall).
  destruct (Hall ["a.pt"; "b.pt"; "c.pt"]) as (w' & evs & Hrun & Htr & Hsub & Hlen).
  exists w', evs. split; [exact Hrun|]. split; [exact Htr|].
  split; [exact Hsub | exact Hlen].
Defined.

Example scenario_library_calls :
  let evs := trace (for_each ["a.pt"; "b.pt"; "c.pt"]
                      (run_loop_body Sample.permissive Sample.export_scenario)
                      (Sample.start Sample.tree_scenario)).2 in
  loads evs = ["a.pt"; "c.pt"]
  ∧ library_calls evs
    = [EvLoad "a.pt"; EvExport export_args; EvLoad "c.pt"; EvExport export_args].
Proof. vm_compute. by split. Qed.


(** X6 on the tree an earlier run left, with an operating system that
    would refuse to make a directory. *)
Lemma destination_in_place_run_completes_witness :
  ∃ w',
    run_main' Sample.read_only Sample.YOLO' Sample.export_beside' Sample.quiet
      (Sample.start Sample.tree_after_run)
    = (Done tt, w')
    ∧ last (trace w') = Some (EvPrint MsgComplete).
Proof.
  destruct (destination_in_place_run_completes
              Sample.cwd Sample.script_file Sample.read_only string
              Sample.YOLO' Sample.export_beside' Sample.quiet
              (Sample.start Sample.tree_after_run))
    as (_ & _ & Hruns).
  - intros l [k Hk]. vm_compute in Hk.
    destruct l as [|a [|b [|c [|d [|e l]]]]]; cbn [app] in Hk; simplify_eq; reflexivity.
  - destruct Hruns as (w' & evs & Hrun & Htr & _ & Hlast).
    + split; [reflexivity|]. split.
      * intros e name t t'. unfold Sample.YOLO', os_call.
        destruct (Sample.YOLO name t) as [[m|e0] t0]; discriminate.
      * intros e model t t'. discriminate.
    + exists w'. split; [exact Hrun|].
      rewrite Htr. simpl. destruct evs as [|ev evs]; [discriminate Hlast|].
      by rewrite last_cons_cons.
Defined.

(** The same run with the standard output closed ends at the first
    [print], line 23. *)
Example closed_stdout_run :
  (run_main' Sample.read_only Sample.YOLO' Sample.export_beside' Sample.closed_stdout
     (Sample.start Sample.tree_after_run)).1
  = Raised (Failure (Exc "ValueError" "I/O operation on closed file.")).
Proof. vm_compute. reflexivity. Qed.

(** X8 with the exporter that writes into the destination directory under
    the final name: the two paths are written differently and lead to the
    same file. *)
Lemma export_in_place_is_kept_witness :
  ∃ w1,
    run_loop_body Sample.permissive Sample.export_into_place
      "yolo26n-pose.pt" (Sample.start Sample.tree_ready) = (Return tt, w1)
    ∧ fs w1 !! destination = Some (File "onnx of yolo26n-pose.pt")
    ∧ last (console (trace w1))
      = Some "Successfully exported yolo26n-pose.onnx to /app/scripts/../public/models/yolo26/yolo26n-pose.onnx".
Proof.
  pose (r1 := Sample.YOLO "yolo26n-pose.pt" Sample.tree_ready).
  pose (r2 := Sample.export_into_place "yolo26n-pose.pt" export_args r1.2).
  destruct (export_in_place_is_kept
              Sample.cwd Sample.script_file Sample.permissive string
              Sample.YOLO Sample.export_into_place
              "yolo26n-pose.pt" (Sample.start Sample.tree_ready)
              "yolo26n-pose.pt" "/app/public/models/yolo26/yolo26n-pose.onnx"
              r1.2 r2.2 destination)
    as (w1 & Hbody & Hfs & Hlast).
  - vm_compute. reflexivity.
  - apply (result_eq r1). vm_compute. reflexivity.
  - apply (result_eq r2). vm_compute. reflexivity.
  - vm_compute. reflexivity.
  - vm_compute. reflexivity.
  - eexists. vm_compute. reflexivity.
  - reflexivity.
  - exists w1. split; [exact Hbody|]. split.
    + rewrite Hfs. vm_compute. reflexivity.
    + rewrite console_printed, fmap_last, Hlast. reflexivity.
Defined.

(** X9 in a working directory without checkpoints. *)
Lemma nothing_to_export_changes_nothing_witness :
  ∃ t',
    (run_main Sample.permissive Sample.export_beside (Sample.start Sample.tree_bare)).1
    = Return tt
    ∧ fs (run_main Sample.permissive Sample.export_beside
            (Sample.start Sample.tree_bare)).2 = t'
    ∧ is_dir t' ["app"; "public"; "models"; "yolo26"] = true
    ∧ t' !! ["work"] = Some Dir.
Proof.
  pose (r := fs_makedirs Sample.cwd Sample.permissive
               (target_dir Sample.script_file) Sample.tree_bare).
  destruct (nothing_to_export_changes_nothing
              Sample.cwd Sample.script_file Sample.permissive string
              Sample.YOLO Sample.export_beside (Sample.start Sample.tree_bare) r.2)
    as (Hrun & _).
  - apply (result_eq r). vm_compute. reflexivity.
  - intros name Hin. unfold model_names in Hin.
    repeat (apply elem_of_cons in Hin as [-> | Hin]; [vm_compute; reflexivity|]).
    by apply elem_of_nil in Hin.
  - exists r.2. rewrite Hrun. cbn [fst snd fs].
    split; [reflexivity|]. split; [reflexivity|].
    split; vm_compute; reflexivity.
Defined.
